(** * GKI tracker: a shallow embedding of [client/src/App.tsx]

    The application is one React component.  Its logic is a conversion of
    units, a quotient printed with [toFixed(1)], a five-way classification of
    that quotient, and four handlers that talk to one IndexedDB object store.

    The development has three layers:
    - [JS]: the fragment of ECMAScript the component relies on (binary64
      numbers, [Number.prototype.toFixed], [parseFloat], [typeof],
      [Array.prototype.sort]);
    - the component itself: [convertGlucoseToMmol], [calculateGKI],
      [getGKIZone], [addEntry], [deleteEntry], [getAllEntries], [initDB],
      [handleSubmit], [handleDelete], over an abstract IndexedDB backend;
    - the properties of the component. *)

From Stdlib Require Import ZArith QArith Qabs Qround List String Ascii Bool Lia Lqa.
From Stdlib Require Import Floats Decimal DecimalString DecimalN DecimalPos.
From Stdlib Require Import Permutation Sorted.
Import ListNotations.

(* ================================================================== *)
(** * The ECMAScript fragment *)
(* ================================================================== *)

Module JS.

(** ** Numbers

    A JavaScript number is an IEEE 754 binary64 value: Rocq's primitive
    [float].  [x / y], [x - y], [x < y], [x >= y] and [x === y] on numbers are
    [PrimFloat.div], [PrimFloat.sub], [PrimFloat.ltb], [PrimFloat.leb] (with the
    operands swapped) and [PrimFloat.eqb]. *)

Definition number := float.

Definition lt (x y : number) : bool := (x <? y)%float.
Definition ge (x y : number) : bool := (y <=? x)%float.
Definition strictEq (x y : number) : bool := (x =? y)%float.

(** The mathematical value of a number.  Every finite binary64 value is an
    integer multiple of [2^-1074]; [ulps] is that integer. *)

Inductive value : Type :=
| NaN : value
| Inf (negative : bool) : value
| Fin (q : Q) : value.

Definition ulpDen : positive := (2 ^ 1074)%positive.

Definition ulps (x : spec_float) : Z :=
  match x with
  | S754_finite s m e => cond_Zopp s (Z.pos m * 2 ^ (e + 1074))
  | _ => 0
  end.

Definition SF2value (x : spec_float) : value :=
  match x with
  | S754_nan => NaN
  | S754_infinity s => Inf s
  | S754_zero _ | S754_finite _ _ _ => Fin (ulps x # ulpDen)
  end.

Definition valueOf (x : number) : value := SF2value (Prim2SF x).

(** [Number.isFinite] *)
Definition isFinite (x : number) : bool :=
  match valueOf x with
  | Fin _ => true
  | _ => false
  end.

(** The value of a finite number, and 0 for the others. *)
Definition exactQ (x : number) : Q :=
  match valueOf x with
  | Fin q => q
  | _ => 0
  end.

(** [roundQ neg num den] is the binary64 value nearest to [num / den] (ties to
    even), with sign [neg]: the conversion of a real to a number, computed as
    the Standard Library specifies the division of binary64 values. *)

Definition roundQ (neg : bool) (num : Z) (den : positive) : number :=
  SF2Prim
    match num with
    | Z.pos _ =>
        let '(q, e, l) := SFdiv_core_binary prec emax num 0 (Z.pos den) 0 in
        binary_round_aux prec emax neg q e l
    | _ => S754_zero neg
    end.

(** ** Strings

    Strings are sequences of code units below 256.  [decimal n] is the decimal
    representation of a non-negative integer, ["0"] for zero. *)

Local Open Scope string_scope.

Definition decimal (n : Z) : string :=
  NilEmpty.string_of_uint (N.to_uint (Z.to_N n)).

Definition digitsValue (ds : string) : Z :=
  match NilEmpty.uint_of_string ds with
  | Some u => Z.of_N (N.of_uint u)
  | None => 0
  end.

Definition isDigit (c : ascii) : bool :=
  match c with
  | "0" | "1" | "2" | "3" | "4" | "5" | "6" | "7" | "8" | "9" => true
  | _ => false
  end%char.

Fixpoint spanDigits (s : string) : string * string :=
  match s with
  | String c s' =>
      if isDigit c
      then let (ds, rest) := spanDigits s' in (String c ds, rest)
      else ("", s)
  | "" => ("", "")
  end.

Fixpoint zeros (n : nat) : string :=
  match n with
  | O => ""
  | S n' => String "0" (zeros n')
  end.

Definition len (s : string) : Z := Z.of_nat (String.length s).

(** ** [parseFloat]

    The argument is trimmed of leading white space, and the longest prefix
    that is a [StrDecimalLiteral] is converted: an optional sign, then
    [Infinity], or digits with an optional fraction and an optional exponent.
    No such prefix gives [NaN]. *)

Definition isWhiteSpace (c : ascii) : bool :=
  let n := nat_of_ascii c in
  ((9 <=? n) && (n <=? 13) || (n =? 32) || (n =? 160))%nat.

Fixpoint trimStart (s : string) : string :=
  match s with
  | String c s' => if isWhiteSpace c then trimStart s' else s
  | "" => ""
  end.

(** An [ExponentPart] at the head of [s], if there is one: its value, and 0
    when [s] does not start with one. *)
Definition scanExponent (s : string) : Z :=
  match s with
  | String c s1 =>
      if (c =? "e")%char || (c =? "E")%char then
        let '(neg, s2) :=
          match s1 with
          | String "+" t => (false, t)
          | String "-" t => (true, t)
          | _ => (false, s1)
          end in
        let v := digitsValue (fst (spanDigits s2)) in
        if neg then - v else v
      else 0
  | "" => 0
  end%Z.

(** A [StrUnsignedDecimalLiteral]: [Infinity], or decimal digits [ds] scaled
    by [10^e]. *)
Inductive literal : Type :=
| Infinity : literal
| Decimal (ds : string) (e : Z) : literal.

(** The longest prefix of [s] that is such a literal. *)
Definition scanLiteral (s : string) : option literal :=
  if prefix "Infinity" s then Some Infinity
  else
    let (ip, s1) := spanDigits s in
    let (fp, s2) :=
      match s1 with
      | String "." t => spanDigits t
      | _ => ("", s1)
      end in
    match ip ++ fp with
    | "" => None
    | ds => Some (Decimal ds (scanExponent s2 - len fp))
    end.

(** The sign and the literal of a [StrDecimalLiteral] after white space. *)
Definition signedLiteral (s : string) : bool * option literal :=
  match trimStart s with
  | String "+" t => (false, scanLiteral t)
  | String "-" t => (true, scanLiteral t)
  | t => (false, scanLiteral t)
  end.

(** The mathematical value of the digits [ds] scaled by [10^e], and the number
    it converts to. *)
Definition MV (ds : string) (e : Z) : Q :=
  inject_Z (digitsValue ds) * Qpower (10 # 1) e.

Definition decimalToNumber (neg : bool) (ds : string) (e : Z) : number :=
  roundQ neg (digitsValue ds * 10 ^ Z.max e 0) (Z.to_pos (10 ^ Z.max (- e) 0)).

Definition parseFloat (s : string) : number :=
  match signedLiteral s with
  | (_, None) => nan
  | (neg, Some Infinity) => if neg then neg_infinity else infinity
  | (neg, Some (Decimal ds e)) => decimalToNumber neg ds e
  end.

(** The value of the decimal literal that [parseFloat] reads in [s]. *)
Definition decimalValue (s : string) : option Q :=
  match signedLiteral s with
  | (neg, Some (Decimal ds e)) => Some (if neg then - MV ds e else MV ds e)
  | _ => None
  end.

(** ** [Number::toString]

    For a positive finite [x], the digits [s], their count [k] and the decimal
    exponent [n] are the ones with [10^(k-1) <= s < 10^k], [s * 10^(n-k)]
    converting to [x], [k] least, and then [s * 10^(n-k)] nearest to [x] (the
    even [s] on a tie). *)

Record digits : Type := { ds_s : Z; ds_k : Z; ds_n : Z }.

Definition digitsQ (d : digits) : Q :=
  inject_Z (ds_s d) * Qpower (10 # 1) (ds_n d - ds_k d).

Definition denotes (x : number) (d : digits) : bool :=
  let q := digitsQ d in
  (10 ^ (ds_k d - 1) <=? ds_s d)%Z && (ds_s d <? 10 ^ ds_k d)%Z
  && (roundQ false (Qnum q) (Qden q) =? x)%float.

(** Decimal magnitude: the [n] with [10^(n-1) <= q < 10^n], for [q > 0]. *)
Definition magnitude10 (q : Q) : Z :=
  let a := Qnum q in
  let b := Z.pos (Qden q) in
  if (b <=? a)%Z then len (decimal (a / b)) else 1 - len (decimal (b / a)).

Definition candidates (x : number) (k : Z) : list digits :=
  let q := exactQ x in
  let n0 := magnitude10 q in
  flat_map
    (fun n =>
       let s0 := Qfloor (q * Qpower (10 # 1) (k - n)) in
       filter (denotes x)
         [ {| ds_s := s0; ds_k := k; ds_n := n |};
           {| ds_s := s0 + 1; ds_k := k; ds_n := n |} ])
    [n0 - 1; n0; n0 + 1]%Z.

Definition closer (x : number) (d1 d2 : digits) : digits :=
  let q := exactQ x in
  match Qcompare (Qabs (digitsQ d1 - q)) (Qabs (digitsQ d2 - q)) with
  | Lt => d1
  | Gt => d2
  | Eq => if Z.even (ds_s d1) then d1 else d2
  end.

Fixpoint shortest (fuel : nat) (x : number) (k : Z) : digits :=
  match fuel with
  | O => {| ds_s := 0; ds_k := 1; ds_n := 1 |}
  | S fuel' =>
      match candidates x k with
      | d :: ds => fold_left (closer x) ds d
      | [] => shortest fuel' x (k + 1)
      end
  end.

(** Seventeen significant digits identify any binary64 value. *)
Definition shortestDigits (x : number) : digits := shortest 17 x 1.

Definition toStringPositive (x : number) : string :=
  let d := shortestDigits x in
  let s := decimal (ds_s d) in
  let k := ds_k d in
  let n := ds_n d in
  if (k <=? n)%Z && (n <=? 21)%Z then s ++ zeros (Z.to_nat (n - k))
  else if (0 <? n)%Z && (n <=? 21)%Z then
    substring 0 (Z.to_nat n) s ++ "." ++ substring (Z.to_nat n) (Z.to_nat (k - n)) s
  else if (-6 <? n)%Z && (n <=? 0)%Z then
    "0." ++ zeros (Z.to_nat (- n)) ++ s
  else
    let e := (n - 1)%Z in
    let exponent := (if (e <? 0)%Z then "-" else "+") ++ decimal (Z.abs e) in
    if (k =? 1)%Z then s ++ "e" ++ exponent
    else substring 0 1 s ++ "." ++ substring 1 (Z.to_nat (k - 1)) s ++ "e" ++ exponent.

Definition toString (x : number) : string :=
  match Prim2SF x with
  | S754_nan => "NaN"
  | S754_zero _ => "0"
  | S754_infinity s => if s then "-Infinity" else "Infinity"
  | S754_finite s _ _ =>
      if s then "-" ++ toStringPositive (- x)%float else toStringPositive x
  end.

(** ** [Number.prototype.toFixed]

    [toFixed x f], for [f] from 0 to 100: a non-finite [x], or one of magnitude
    at least [10^21], is printed by [toString]; otherwise [n] is the integer
    nearest to [|x| * 10^f] (the larger of two), printed with at least [f + 1]
    digits and a point before the last [f]. *)

Definition nearestInteger (q : Q) : Z := Qfloor (q + (1 # 2)).

Definition toFixed (x : number) (f : nat) : string :=
  match valueOf x with
  | Fin q =>
      let s := if Qle_bool 0 q then "" else "-" in
      let q := Qabs q in
      if Qle_bool (inject_Z (10 ^ 21)) q then s ++ toString (PrimFloat.abs x)
      else
        let n := nearestInteger (q * inject_Z (10 ^ Z.of_nat f)) in
        let m := decimal n in
        let m := zeros (S f - String.length m) ++ m in
        let k := String.length m in
        s ++ (if (f =? 0)%nat then m
              else substring 0 (k - f) m ++ "." ++ substring (k - f) f m)
  | _ => toString x
  end.

(** ** Values of any type, and [typeof] *)

Inductive any : Type :=
| Undefined : any
| Null : any
| Boolean (b : bool) : any
| Number (n : number) : any
| Str (s : string) : any
| Object : any.

Definition typeof (v : any) : string :=
  match v with
  | Undefined => "undefined"
  | Null => "object"
  | Boolean _ => "boolean"
  | Number _ => "number"
  | Str _ => "string"
  | Object => "object"
  end.

(** ** [Array.prototype.sort]

    [SortCompare] reads a [NaN] from the comparator as [+0].  The order of
    the comparator calls is left to the implementation; for a consistent
    comparator the result is the one stable sorted permutation, computed here
    by insertion. *)

Section Sort.
Variable A : Type.
Variable comparator : A -> A -> number.

Definition sortCompare (x y : A) : number :=
  let v := comparator x y in
  if is_nan v then 0%float else v.

Fixpoint insert (x : A) (l : list A) : list A :=
  match l with
  | [] => [x]
  | y :: l' =>
      if (sortCompare x y <=? 0)%float then x :: l else y :: insert x l'
  end.

Definition sort (l : list A) : list A := fold_right insert [] l.

End Sort.
Arguments sortCompare {A} comparator x y.
Arguments insert {A} comparator x l.
Arguments sort {A} comparator l.

End JS.

(* ================================================================== *)
(** * The component *)
(* ================================================================== *)

Local Open Scope string_scope.

Inductive GlucoseUnit : Type := mg_dL | mmol_L.

(** The text of a unit: the string the type [GlucoseUnit] has it as. *)
Definition unitText (unit : GlucoseUnit) : string :=
  match unit with
  | mg_dL => "mg/dL"
  | mmol_L => "mmol/L"
  end.

(** [interface Entry]: [id] is absent until the store assigns it. *)
Module Entry.
Record t : Type := mk {
  id : option JS.number;
  glucose : JS.number;
  glucoseUnit : GlucoseUnit;
  ketones : JS.number;
  gki : string;
  timestamp : JS.number
}.

Definition withId (e : t) (i : JS.number) : t :=
  mk (Some i) (glucose e) (glucoseUnit e) (ketones e) (gki e) (timestamp e).
End Entry.

Definition dbName : string := "GKITrackerDB".
Definition objectStoreName : string := "gkiEntries".

Module messages.
Module error.
Definition invalidInput : string :=
  "Please enter valid glucose and ketone values. Ketones cannot be zero.".
Definition errorInitializingDatabase (reason : string) : string :=
  "Error initializing database: " ++ reason.
Definition errorDeletingEntry : string := "Failed to delete entry".
Definition errorDeletingEntryDetailed (reason : string) : string :=
  "Failed to delete entry: " ++ reason.
Definition errorSavingEntry : string := "Failed yo save entry".
Definition errorSavingEntryDetailed (reason : string) : string :=
  "Failed to save entry: " ++ reason.
Definition errorSavingEntryInvalidKeyType (actualType : string) : string :=
  "Failed to save entry: expected a number, but got a " ++ actualType.
Definition failedOpeningDB : string := "Failed to open database".
Definition failedRetrievingEntries : string := "Failed to retrieve entries".
End error.
Module ketosisZone.
Definition deep : string := "Deep therapeutic ketosis".
Definition moderate : string := "Moderate therapeutic ketosis".
Definition light : string := "Light nutritional ketosis".
Definition mild : string := "Mild ketosis".
Definition none : string := "Not in ketosis".
End ketosisZone.
End messages.

(** ** Computation *)

Definition convertGlucoseToMmol (glucose : JS.number) (unit : GlucoseUnit) : JS.number :=
  match unit with
  | mg_dL => (glucose / 18)%float
  | mmol_L => glucose
  end.

Definition calculateGKI (glucoseValue ketonesValue : JS.number) (unit : GlucoseUnit) : string :=
  let glucoseInMmol := convertGlucoseToMmol glucoseValue unit in
  JS.toFixed (glucoseInMmol / ketonesValue)%float 1.

(** [keyof typeof messages.ketosisZone] *)
Inductive ZoneKey : Type := deep | moderate | light | mild | none.

Definition zoneMessage (z : ZoneKey) : string :=
  match z with
  | deep => messages.ketosisZone.deep
  | moderate => messages.ketosisZone.moderate
  | light => messages.ketosisZone.light
  | mild => messages.ketosisZone.mild
  | none => messages.ketosisZone.none
  end.

Record GKIZone : Type := { zone : ZoneKey; color : string }.

Definition getGKIZone (gki : JS.number) : GKIZone :=
  if JS.lt gki 1%float then {| zone := deep; color := "bg-purple-500" |}
  else if JS.ge gki 1%float && JS.lt gki 3%float
  then {| zone := moderate; color := "bg-blue-500" |}
  else if JS.ge gki 3%float && JS.lt gki 6%float
  then {| zone := light; color := "bg-green-500" |}
  else if JS.ge gki 6%float && JS.lt gki 9%float
  then {| zone := mild; color := "bg-yellow-500" |}
  else {| zone := none; color := "bg-red-500" |}.

(** What the specification says of the index: a text with exactly one
    fractional digit, which reads back as the quotient rounded to one
    decimal, the nearest multiple of [1/10] as a number. *)

Fixpoint allDigits (s : string) : bool :=
  match s with
  | String c s' => JS.isDigit c && allDigits s'
  | "" => true
  end.

Definition oneFractionalDigit (s : string) : bool :=
  let (ip, rest) := JS.spanDigits s in
  match ip, rest with
  | String _ _, String "." (String d "") => JS.isDigit d
  | _, _ => false
  end.

Definition oneDecimal (x : JS.number) : Q :=
  inject_Z (JS.nearestInteger (JS.exactQ x * 10)) / 10.

Definition roundedToOneDecimal (x : JS.number) : JS.number :=
  JS.roundQ false (JS.nearestInteger (JS.exactQ x * 10)) 10.

(** ** Effects

    The handlers are asynchronous functions over IndexedDB, the clock and the
    dialogs of the window.  A handler is a program: a tree of the requests it
    makes, each with the continuation that receives the answer.  An IndexedDB
    request answers by throwing, by its [onerror] event or by its [onsuccess]
    event with a result; [db.transaction(..).objectStore(..)] is part of the
    request it serves, and an exception of either is the request's.  The
    [onupgradeneeded] handler of [openDatabase], which creates the object
    store with [keyPath: "id"], [autoIncrement: true] and the index on
    [timestamp], acts inside the database: it is part of the environment's
    answer to the open request.

    A handler reads the state of the render it was created in and runs to
    completion before the next one starts: a run takes the state before and
    gives the state after. *)

Inductive thrown : Type :=
| Error (message : string)
| NotAnError (v : JS.any).

(** [assertGlucoseUnit] returns the unit or throws. *)
Definition assertGlucoseUnit (unit : string) : thrown + GlucoseUnit :=
  if (unit =? "mg/dL")%string then inr mg_dL
  else if (unit =? "mmol/L")%string then inr mmol_L
  else inl (Error ("Invalid glucose unit: " ++ unit)).

Inductive request (A : Type) : Type :=
| Threw (e : thrown)
| OnError
| OnSuccess (result : A).
Arguments Threw {A} e.
Arguments OnError {A}.
Arguments OnSuccess {A} result.

Inductive promise (A : Type) : Type :=
| Resolved (a : A)
| Rejected (reason : thrown).
Arguments Resolved {A} a.
Arguments Rejected {A} reason.

(** An open connection. *)
Inductive IDBDatabase : Type := Connection (name : string) (version : Z).

Inductive event : Type -> Type :=
| IndexedDBOpen (name : string) (version : Z) : event (request IDBDatabase)
| StoreAdd (db : IDBDatabase) (store : string) (entry : Entry.t) : event (request JS.any)
| StoreDelete (db : IDBDatabase) (store : string) (key : JS.number) : event (request unit)
| StoreGetAll (db : IDBDatabase) (store : string) : event (request (list Entry.t))
| DateGetTime : event JS.number
| PreventDefault : event unit
| Alert (message : string) : event unit
| Confirm (message : string) : event bool
| ConsoleError (message : string) (detail : option thrown) : event unit.

Inductive prog (A : Type) : Type :=
| Ret (a : A)
| Vis (X : Type) (e : event X) (k : X -> prog A).
Arguments Ret {A} a.
Arguments Vis {A X} e k.

Fixpoint bind {A B : Type} (p : prog A) (f : A -> prog B) : prog B :=
  match p with
  | Ret a => f a
  | Vis e k => Vis e (fun x => bind (k x) f)
  end.

Definition trigger {X : Type} (e : event X) : prog X := Vis e Ret.

Declare Scope prog_scope.
Delimit Scope prog_scope with prog.
Notation "x <- p ;; q" := (bind p (fun x => q))
  (at level 61, p at next level, right associativity) : prog_scope.
Notation "p ;; q" := (bind p (fun _ => q))
  (at level 61, right associativity) : prog_scope.
(** [await] inside a [try] whose handler rethrows, or outside any [try]. *)
Notation "x <-await p ;; q" :=
  (bind p (fun r => match r with Resolved x => q | Rejected e => Ret (Rejected e) end))
  (at level 61, p at next level, right associativity) : prog_scope.

(** A run of a program against an environment that answers its requests. *)
Inductive action : Type := Did (X : Type) (e : event X) (x : X).
Arguments Did {X} e x.

Definition handler (W : Type) : Type := forall X : Type, event X -> W -> X * W.

Fixpoint exec {W A : Type} (h : handler W) (p : prog A) (w : W) : A * W * list action :=
  match p with
  | Ret a => (a, w, [])
  | Vis e k =>
      let (x, w') := h _ e w in
      let '(a, w'', t) := exec h (k x) w' in
      (a, w'', Did e x :: t)
  end.

Definition result {W A : Type} (h : handler W) (p : prog A) (w : W) : A := fst (fst (exec h p w)).
Definition world {W A : Type} (h : handler W) (p : prog A) (w : W) : W := snd (fst (exec h p w)).
Definition trace {W A : Type} (h : handler W) (p : prog A) (w : W) : list action := snd (exec h p w).

(** ** The number inputs

    Both fields are [<input type="number">]: the value such an element reports
    is the text typed when that is a valid floating-point number, and the
    empty string otherwise. *)

Definition validExponent (s : string) : bool :=
  match s with
  | String c s1 =>
      ((c =? "e")%char || (c =? "E")%char)
      && let s2 :=
           match s1 with
           | String "+" t => t
           | String "-" t => t
           | _ => s1
           end in
         match JS.spanDigits s2 with
         | (String _ _, "") => true
         | _ => false
         end
  | "" => true
  end.

Definition validFloatingPointNumber (s : string) : bool :=
  let s0 :=
    match s with
    | String "-" t => t
    | _ => s
    end in
  let (ip, s1) := JS.spanDigits s0 in
  match s1 with
  | String "." t =>
      let (fp, s2) := JS.spanDigits t in
      match fp with
      | "" => false
      | _ => validExponent s2
      end
  | _ =>
      match ip with
      | "" => false
      | _ => validExponent s1
      end
  end.

Definition numberInputValue (typed : string) : string :=
  if validFloatingPointNumber typed then typed else "".

(** ** [function App()] *)

Module App.

Local Open Scope prog_scope.

(** The state hooks of the component. *)
Record state : Type := mkState {
  glucose : string;
  ketones : string;
  glucoseUnit : GlucoseUnit;
  entries : list Entry.t;
  loading : bool;
  dbError : option string
}.

Definition setGlucose (v : string) (st : state) : state :=
  mkState v (ketones st) (glucoseUnit st) (entries st) (loading st) (dbError st).
Definition setKetones (v : string) (st : state) : state :=
  mkState (glucose st) v (glucoseUnit st) (entries st) (loading st) (dbError st).
Definition setGlucoseUnit (v : GlucoseUnit) (st : state) : state :=
  mkState (glucose st) (ketones st) v (entries st) (loading st) (dbError st).
Definition setEntries (v : list Entry.t) (st : state) : state :=
  mkState (glucose st) (ketones st) (glucoseUnit st) v (loading st) (dbError st).
Definition setLoading (v : bool) (st : state) : state :=
  mkState (glucose st) (ketones st) (glucoseUnit st) (entries st) v (dbError st).
Definition setDbError (v : option string) (st : state) : state :=
  mkState (glucose st) (ketones st) (glucoseUnit st) (entries st) (loading st) v.

(** [error instanceof Error ? error.message : "Unknown error"] *)
Definition reasonOf (error : thrown) : string :=
  match error with
  | Error message => message
  | NotAnError _ => "Unknown error"
  end.

Definition openDatabase : prog (promise IDBDatabase) :=
  r <- trigger (IndexedDBOpen dbName 1) ;;
  Ret match r with
      | Threw e => Rejected e
      | OnError => Rejected (Error messages.error.failedOpeningDB)
      | OnSuccess db => Resolved db
      end.

Definition getAllEntries (db : IDBDatabase) : prog (promise (list Entry.t)) :=
  r <- trigger (StoreGetAll db objectStoreName) ;;
  Ret match r with
      | Threw e => Rejected e
      | OnError => Rejected (Error messages.error.failedRetrievingEntries)
      | OnSuccess stored => Resolved stored
      end.

(** The [onsuccess] handler of the add request: [id === undefined], then
    [typeof id !== "number"], then [resolve(id)]. *)
Definition addedKey (id : JS.any) : promise JS.number :=
  match id with
  | JS.Undefined => Rejected (Error messages.error.errorSavingEntry)
  | JS.Number n => Resolved n
  | _ => Rejected (Error (messages.error.errorSavingEntryInvalidKeyType (JS.typeof id)))
  end.

Definition addEntry (entry : Entry.t) : prog (promise JS.number) :=
  db <-await openDatabase ;;
  r <- trigger (StoreAdd db objectStoreName entry) ;;
  Ret match r with
      | Threw e => Rejected e
      | OnError => Rejected (Error "Failed to add entry")
      | OnSuccess id => addedKey id
      end.

Definition deleteEntry (id : option JS.number) : prog (promise unit) :=
  match id with
  | None => Ret (Resolved tt)
  | Some id =>
      db <-await openDatabase ;;
      r <- trigger (StoreDelete db objectStoreName id) ;;
      Ret match r with
          | Threw e => Rejected e
          | OnError => Rejected (Error "Failed to delete entry")
          | OnSuccess _ => Resolved tt
          end
  end.

(** [(a, b) => b.timestamp - a.timestamp] *)
Definition byTimestampDescending (a b : Entry.t) : JS.number :=
  (Entry.timestamp b - Entry.timestamp a)%float.

Definition initDB (st : state) : prog state :=
  r <- (db <-await openDatabase ;; getAllEntries db) ;;
  match r with
  | Resolved storedEntries =>
      Ret (setLoading false
             (setEntries (JS.sort byTimestampDescending storedEntries) st))
  | Rejected error =>
      let reason := reasonOf error in
      let errorMessage := messages.error.errorInitializingDatabase reason in
      trigger (ConsoleError errorMessage None) ;;
      Ret (setLoading false (setDbError (Some errorMessage) st))
  end.

(** [!s] for a string [s]. *)
Definition falsy (s : string) : bool :=
  match s with
  | "" => true
  | _ => false
  end%string.

(** [!glucose || !ketones || parseFloat(ketones) === 0] *)
Definition rejects (st : state) : bool :=
  falsy (glucose st) || falsy (ketones st)
  || JS.strictEq (JS.parseFloat (ketones st)) 0%float.

Definition newEntry (st : state) (now : JS.number) : Entry.t :=
  let glucoseValue := JS.parseFloat (glucose st) in
  let ketonesValue := JS.parseFloat (ketones st) in
  let gkiValue := calculateGKI glucoseValue ketonesValue (glucoseUnit st) in
  Entry.mk None glucoseValue (glucoseUnit st) ketonesValue gkiValue now.

Definition handleSubmit (st : state) : prog state :=
  trigger PreventDefault ;;
  if rejects st then
    trigger (Alert messages.error.invalidInput) ;;
    Ret st
  else
    now <- trigger DateGetTime ;;
    let newEntry := newEntry st now in
    r <- addEntry newEntry ;;
    match r with
    | Resolved id =>
        Ret (setKetones ""
               (setGlucose ""
                  (setEntries (Entry.withId newEntry id :: entries st) st)))
    | Rejected error =>
        trigger (ConsoleError "Error adding entry:" (Some error)) ;;
        let reason := reasonOf error in
        trigger (Alert (messages.error.errorSavingEntryDetailed reason)) ;;
        Ret st
    end.

(** [entry.id !== id], for [id] a number. *)
Definition idDiffers (id : JS.number) (entry : Entry.t) : bool :=
  match Entry.id entry with
  | None => true
  | Some i => negb (JS.strictEq i id)
  end.

Definition handleDelete (id : option JS.number) (st : state) : prog state :=
  match id with
  | None => Ret st
  | Some id =>
      confirmed <- trigger (Confirm "Are you sure you want to delete this entry?") ;;
      if negb confirmed then Ret st
      else
        r <- deleteEntry (Some id) ;;
        match r with
        | Resolved _ => Ret (setEntries (filter (idDiffers id) (entries st)) st)
        | Rejected error =>
            let errorMessage :=
              match error with
              | Error message => messages.error.errorDeletingEntryDetailed message
              | NotAnError _ => messages.error.errorDeletingEntry
              end in
            trigger (Alert errorMessage) ;;
            Ret st
        end
  end.

(** *** The rest of the component: the first state, the form and the screen *)

(** The state at the first render: the defaults of the [useState] hooks. *)
Definition initial : state := mkState "" "" mg_dL [] true None.

(** The [onChange] handlers of the two number inputs and of the unit
    selector.  An exception of [assertGlucoseUnit] leaves the state as it
    is. *)
Definition changeGlucose (typed : string) (st : state) : state :=
  setGlucose (numberInputValue typed) st.

Definition changeKetones (typed : string) (st : state) : state :=
  setKetones (numberInputValue typed) st.

Definition changeUnit (value : string) (st : state) : state :=
  match assertGlucoseUnit value with
  | inr unit => setGlucoseUnit unit st
  | inl _ => st
  end.

(** What the component returns.  One card of the history shows the stored
    index, the zone of that index read back as a number, the glucose as
    entered, its conversion when the unit is mg/dL, and the ketones; its
    button deletes by the id of the entry.  The date and the time of a card
    are texts of the locale ([toLocaleDateString], [toLocaleTimeString]) and
    are not part of [card]. *)
Record card : Type := {
  key : option JS.number;
  heading : string;
  badgeColor : string;
  badgeText : string;
  deletes : option JS.number;
  glucoseText : string;
  convertedText : option string;
  ketonesText : string
}.

Definition renderEntry (entry : Entry.t) : card :=
  let gkiZone := getGKIZone (JS.parseFloat (Entry.gki entry)) in
  {| key := Entry.id entry;
     heading := "GKI: " ++ Entry.gki entry;
     badgeColor := color gkiZone;
     badgeText := zoneMessage (zone gkiZone);
     deletes := Entry.id entry;
     glucoseText :=
       JS.toString (Entry.glucose entry) ++ " " ++ unitText (Entry.glucoseUnit entry);
     convertedText :=
       match Entry.glucoseUnit entry with
       | mg_dL =>
           Some ("(" ++ JS.toFixed (convertGlucoseToMmol (Entry.glucose entry)
                                      (Entry.glucoseUnit entry)) 1
                 ++ " mmol/L)")
       | mmol_L => None
       end;
     ketonesText := JS.toString (Entry.ketones entry) ++ " mmol/L" |}.

Inductive history : Type :=
| NoMeasurements : history
| Measurements (cards : list card) : history.

Inductive screen : Type :=
| LoadingScreen : screen
| DatabaseErrorScreen (message : string) : screen
| TrackerScreen (glucoseField ketonesField : string) (unitField : GlucoseUnit)
    (measurements : history) (status : string) : screen.

(** [render online st]: [online] is [navigator.onLine]. *)
Definition render (online : bool) (st : state) : screen :=
  if loading st then LoadingScreen
  else
    match dbError st with
    | Some (String c message) => DatabaseErrorScreen (String c message)
    | _ =>
        TrackerScreen (glucose st) (ketones st) (glucoseUnit st)
          (match entries st with
           | [] => NoMeasurements
           | _ => Measurements (map renderEntry (entries st))
           end)
          (if online then "Online - Data will be stored locally"
           else "Offline - Your data is stored locally")
    end.

(** What the user does on the tracker screen.  [act] handles one action on
    the state of the current render, and [acts] handles a sequence of actions
    one after the other: each handler completes before the next action
    starts.  The handlers are asynchronous, so in the component an action can
    also start while a handler waits for the store; that handler then sets
    the state from the render it started in. *)
Inductive userAction : Type :=
| TypeGlucose (typed : string)
| TypeKetones (typed : string)
| SelectUnit (unit : GlucoseUnit)
| Submit
| ClickDelete (id : option JS.number).

Definition act (a : userAction) (st : state) : prog state :=
  match a with
  | TypeGlucose typed => Ret (changeGlucose typed st)
  | TypeKetones typed => Ret (changeKetones typed st)
  | SelectUnit unit => Ret (changeUnit (unitText unit) st)
  | Submit => handleSubmit st
  | ClickDelete id => handleDelete id st
  end.

Fixpoint acts (actions : list userAction) (st : state) : prog state :=
  match actions with
  | [] => Ret st
  | a :: rest => st' <- act a st ;; acts rest st'
  end.

End App.

(** ** Environments

    [scripted] answers every request of a kind with one fixed answer.
    [browser] is an IndexedDB object store with [keyPath: "id"] and
    [autoIncrement: true], a clock and a user who answers the confirmation
    dialog. *)

Module Env.

Record script : Type := {
  onOpen : request IDBDatabase;
  onAdd : request JS.any;
  onDelete : request unit;
  onGetAll : request (list Entry.t);
  time : JS.number;
  answer : bool
}.

Definition scripted (s : script) : handler unit :=
  fun X e w =>
    match e in event X return X * unit with
    | IndexedDBOpen _ _ => (onOpen s, w)
    | StoreAdd _ _ _ => (onAdd s, w)
    | StoreDelete _ _ _ => (onDelete s, w)
    | StoreGetAll _ _ => (onGetAll s, w)
    | DateGetTime => (time s, w)
    | PreventDefault => (tt, w)
    | Alert _ => (tt, w)
    | Confirm _ => (answer s, w)
    | ConsoleError _ _ => (tt, w)
    end.

Record browser : Type := {
  storageAvailable : bool;
  records : list Entry.t;
  keyGenerator : Z;
  clock : Z;
  userConfirms : bool
}.

Definition ofZ (n : Z) : JS.number := JS.roundQ (n <? 0)%Z (Z.abs n) 1.

Definition stored (b : browser) (rs : list Entry.t) (g : Z) : browser :=
  {| storageAvailable := storageAvailable b; records := rs; keyGenerator := g;
     clock := clock b; userConfirms := userConfirms b |}.

Definition tick (b : browser) : browser :=
  {| storageAvailable := storageAvailable b; records := records b;
     keyGenerator := keyGenerator b; clock := (clock b + 1)%Z;
     userConfirms := userConfirms b |}.

Definition run : handler browser :=
  fun X e b =>
    match e in event X return X * browser with
    | IndexedDBOpen name version =>
        if storageAvailable b then (OnSuccess (Connection name version), b)
        else (OnError, b)
    | StoreAdd _ _ entry =>
        match Entry.id entry with
        | None =>
            let key := ofZ (keyGenerator b) in
            (OnSuccess (JS.Number key),
             stored b (records b ++ [Entry.withId entry key]) (keyGenerator b + 1))
        | Some key =>
            if forallb (App.idDiffers key) (records b)
            then (OnSuccess (JS.Number key),
                  stored b (records b ++ [entry]) (keyGenerator b))
            else (OnError, b)
        end
    | StoreDelete _ _ key =>
        (OnSuccess tt, stored b (filter (App.idDiffers key) (records b)) (keyGenerator b))
    | StoreGetAll _ _ => (OnSuccess (records b), b)
    | DateGetTime => (ofZ (clock b), tick b)
    | PreventDefault => (tt, b)
    | Alert _ => (tt, b)
    | Confirm _ => (userConfirms b, b)
    | ConsoleError _ _ => (tt, b)
    end.

(** Environments and data of the examples. *)

Definition connection : IDBDatabase := Connection dbName 1.

Definition answering (open : request IDBDatabase) (add : request JS.any)
    (del : request unit) (all : request (list Entry.t)) : script :=
  {| onOpen := open; onAdd := add; onDelete := del; onGetAll := all;
     time := 1000%float; answer := true |}.

(** A store that assigns text keys. *)
Definition textKeys : script :=
  answering (OnSuccess connection) (OnSuccess (JS.Str "entry-1")) (OnSuccess tt) (OnSuccess []).

(** Storage that cannot be opened. *)
Definition unavailable : script := answering OnError OnError OnError OnError.

(** A store whose write requests fail. *)
Definition readOnly : script :=
  answering (OnSuccess connection) OnError OnError (OnSuccess []).

Definition older : Entry.t :=
  Entry.mk (Some 1%float) 90%float mg_dL 3%float "1.7" 1000%float.
Definition newer : Entry.t :=
  Entry.mk (Some 2%float) 4.5%float mmol_L 1.5%float "3.0" 2000%float.

Definition holding (stored : list Entry.t) : script :=
  answering (OnSuccess connection) OnError OnError (OnSuccess stored).

Definition fresh : browser :=
  {| storageAvailable := true; records := []; keyGenerator := 1; clock := 1000;
     userConfirms := true |}.

Definition form (glucose ketones : string) (unit : GlucoseUnit) (entries : list Entry.t)
  : App.state :=
  App.mkState glucose ketones unit entries false None.

End Env.

(* ================================================================== *)
(** * Vocabulary of the properties *)
(* ================================================================== *)

(** Values of [spec_float]: the finite ones; the ones of a given sign, [NaN]
    apart; the ones that are not a zero. *)

Definition finite (x : spec_float) : bool :=
  match x with
  | S754_zero _ | S754_finite _ _ _ => true
  | _ => false
  end.

Inductive signed (s : bool) : spec_float -> Prop :=
| signed_zero : signed s (S754_zero s)
| signed_finite (m : positive) (e : Z) : signed s (S754_finite s m e)
| signed_infinity : signed s (S754_infinity s).

Inductive nonzero : spec_float -> Prop :=
| nonzero_finite (s : bool) (m : positive) (e : Z) : nonzero (S754_finite s m e)
| nonzero_infinity (s : bool) : nonzero (S754_infinity s).

(** The number [c] is the integer [n]. *)
Definition constant (c : JS.number) (n : Z) : Prop :=
  exists q, JS.valueOf c = JS.Fin q /\ q == inject_Z n.

(** The entry a submission builds, and the world in which [addEntry] starts. *)
Definition submitted {W : Type} (h : handler W) (st : App.state) (w : W) : Entry.t * W :=
  let now := h _ DateGetTime (snd (h _ PreventDefault w)) in
  (App.newEntry st (fst now), snd now).

Definition confirmation : string := "Are you sure you want to delete this entry?".

(** The notification of a failed deletion. *)
Definition deletionMessage (error : thrown) : string :=
  match error with
  | Error message => messages.error.errorDeletingEntryDetailed message
  | NotAnError _ => messages.error.errorDeletingEntry
  end.

(** The time of an entry, for an entry whose timestamp is finite. *)
Definition timeOf (e : Entry.t) : Q := JS.exactQ (Entry.timestamp e).

Definition timed (e : Entry.t) : Prop := JS.isFinite (Entry.timestamp e) = true.

Definition descending {A : Type} (key : A -> Q) (x y : A) : Prop := key y <= key x.

(** [precedes a b l]: some occurrence of [a] in [l] comes before some
    occurrence of [b]. *)
Definition precedes {A : Type} (a b : A) (l : list A) : Prop :=
  exists l1 l2 l3, l = (l1 ++ a :: l2 ++ b :: l3)%list.

(** Requests to the object store in a trace: the ones that write, and the
    number of requests that satisfy a test. *)
Definition isOpen (a : action) : bool :=
  match a with
  | Did e _ => match e with IndexedDBOpen _ _ => true | _ => false end
  end.

Definition isAdd (a : action) : bool :=
  match a with
  | Did e _ => match e with StoreAdd _ _ _ => true | _ => false end
  end.

Definition isDelete (a : action) : bool :=
  match a with
  | Did e _ => match e with StoreDelete _ _ _ => true | _ => false end
  end.

Definition isGetAll (a : action) : bool :=
  match a with
  | Did e _ => match e with StoreGetAll _ _ => true | _ => false end
  end.

Definition isDialog (a : action) : bool :=
  match a with
  | Did e _ => match e with Alert _ | Confirm _ => true | _ => false end
  end.

Definition count (test : action -> bool) (t : list action) : nat :=
  List.length (filter test t).

(** The order of the zones, from the deepest ketosis. *)
Definition rank (z : ZoneKey) : nat :=
  match z with
  | deep => 0
  | moderate => 1
  | light => 2
  | mild => 3
  | none => 4
  end.

(** The zone of a value: the bands of [getGKIZone] with bounds [b1 < b3 < b6
    < b9]. *)
Definition banded (b1 b3 b6 b9 : Q) (q : Q) : ZoneKey :=
  if Qle_bool b1 q then
    if Qle_bool b3 q then
      if Qle_bool b6 q then if Qle_bool b9 q then none else mild else light
    else moderate
  else deep.

(** The history on the screen and the records of the store hold the same
    entries. *)
Definition inSync (st : App.state) (b : Env.browser) : Prop :=
  Permutation (App.entries st) (Env.records b).

(** The answer of the environment to a write or read request on an open
    database, as the promise of the operation has it. *)
Definition added (r : request JS.any) : promise JS.number :=
  match r with
  | Threw e => Rejected e
  | OnError => Rejected (Error "Failed to add entry")
  | OnSuccess id => App.addedKey id
  end.

Definition deleted (r : request unit) : promise unit :=
  match r with
  | Threw e => Rejected e
  | OnError => Rejected (Error "Failed to delete entry")
  | OnSuccess _ => Resolved tt
  end.

Definition retrieved (r : request (list Entry.t)) : promise (list Entry.t) :=
  match r with
  | Threw e => Rejected e
  | OnError => Rejected (Error messages.error.failedRetrievingEntries)
  | OnSuccess stored => Resolved stored
  end.

(** The first half of [initDB]: the database is opened and the entries are
    read. *)
Definition load : prog (promise (list Entry.t)) :=
  bind App.openDatabase
    (fun r => match r with
              | Resolved db => App.getAllEntries db
              | Rejected e => Ret (Rejected e)
              end).

(** The entry an action sends to the store, and the key an action asks the
    store to delete. *)
Definition entryAdded (a : action) : option Entry.t :=
  match a with
  | Did e _ => match e with StoreAdd _ _ entry => Some entry | _ => None end
  end.

Definition keyDeleted (a : action) : option JS.number :=
  match a with
  | Did e _ => match e with StoreDelete _ _ key => Some key | _ => None end
  end.

(** Whether a request succeeded, and the error with which [openDatabase]
    rejects when the request to open did not. *)
Definition opened {A : Type} (r : request A) : bool :=
  match r with
  | OnSuccess _ => true
  | _ => false
  end.

Definition openingError (r : request IDBDatabase) : thrown :=
  match r with
  | Threw e => e
  | _ => Error messages.error.failedOpeningDB
  end.

(** The component mounts, [initDB] runs, and the actions of the user are
    handled one after the other. *)
Definition session (actions : list App.userAction) : prog App.state :=
  bind (App.initDB App.initial) (App.acts actions).

(** A value that a number input reports: the empty string or a valid
    floating-point number. *)
Definition inputValue (s : string) : Prop :=
  s = "" \/ validFloatingPointNumber s = true.

(** The value [m * 2^e] is at least the integer [c]. *)
Definition atLeast (c m e : Z) : Prop := (c * 2 ^ 1074 <= m * 2 ^ (e + 1074))%Z.

(* ================================================================== *)
(** * Properties *)
(* ================================================================== *)

(** ** Numbers: comparison is comparison of values *)

Section NumberFacts.
Local Open Scope Q_scope.

Lemma digits2_pos_size (m : positive) : digits2_pos m = Pos.size m.
Proof. induction m; simpl; congruence. Qed.

Lemma digits2_upper (m : positive) : (Z.pos m < 2 ^ Z.pos (digits2_pos m))%Z.
Proof.
  rewrite digits2_pos_size.
  pose proof (Pos.size_gt m) as H.
  apply Pos2Z.pos_lt_pos in H. now rewrite Pos2Z.inj_pow in H.
Qed.

Lemma digits2_lower (m : positive) : (2 ^ (Z.pos (digits2_pos m) - 1) <= Z.pos m)%Z.
Proof.
  rewrite digits2_pos_size.
  pose proof (Pos.size_le m) as H.
  apply Pos2Z.pos_le_pos in H. rewrite Pos2Z.inj_pow in H.
  change (Z.pos m~0) with (2 * Z.pos m)%Z in H.
  assert (E : (2 ^ Z.pos (Pos.size m) = 2 * 2 ^ (Z.pos (Pos.size m) - 1))%Z).
  { rewrite <- Z.pow_succ_r by lia. f_equal. lia. }
  lia.
Qed.

(** What [valid_binary] says of a finite value. *)
Lemma bounded_inv (m : positive) (e : Z) :
  bounded prec emax m e = true ->
  (-1074 <= e <= 971)%Z /\ (Z.pos (digits2_pos m) <= 53)%Z
  /\ (Z.pos (digits2_pos m) = 53 \/ e = -1074)%Z.
Proof.
  unfold bounded, canonical_mantissa, fexp, SpecFloat.emin, prec, emax.
  rewrite andb_true_iff, Z.eqb_eq, Z.leb_le. lia.
Qed.

Lemma scaled_lt (m1 m2 : positive) (e1 e2 : Z) :
  bounded prec emax m1 e1 = true -> bounded prec emax m2 e2 = true ->
  (e1 < e2)%Z ->
  (Z.pos m1 * 2 ^ (e1 + 1074) < Z.pos m2 * 2 ^ (e2 + 1074))%Z.
Proof.
  intros B1 B2 He.
  apply bounded_inv in B1 as (R1 & D1 & _).
  apply bounded_inv in B2 as (R2 & _ & D2).
  assert (Z.pos (digits2_pos m2) = 53%Z) as E2 by lia.
  pose proof (digits2_upper m1) as U1.
  pose proof (digits2_lower m2) as L2. rewrite E2 in L2.
  assert (2 ^ Z.pos (digits2_pos m1) <= 2 ^ 53)%Z as U1'
    by (apply Z.pow_le_mono_r; lia).
  replace (e2 + 1074)%Z with ((e2 - e1 - 1) + 1 + (e1 + 1074))%Z by lia.
  rewrite (Z.pow_add_r 2 (e2 - e1 - 1 + 1) (e1 + 1074)) by lia.
  rewrite (Z.pow_add_r 2 (e2 - e1 - 1) 1) by lia.
  assert (0 < 2 ^ (e1 + 1074))%Z as P by (apply Z.pow_pos_nonneg; lia).
  assert (0 < 2 ^ (e2 - e1 - 1))%Z as Q by (apply Z.pow_pos_nonneg; lia).
  change (2 ^ 53)%Z with (2 * 2 ^ (53 - 1))%Z in U1'.
  change (2 ^ 1)%Z with 2%Z.
  set (p := (2 ^ (e1 + 1074))%Z) in *. set (q := (2 ^ (e2 - e1 - 1))%Z) in *.
  set (t := (2 ^ (53 - 1))%Z) in *.
  rewrite Z.mul_assoc. apply Z.mul_lt_mono_pos_r; [exact P|].
  assert (Z.pos m2 <= Z.pos m2 * q)%Z by nia.
  lia.
Qed.

Lemma scaled_compare (m1 m2 : positive) (e1 e2 : Z) :
  bounded prec emax m1 e1 = true -> bounded prec emax m2 e2 = true ->
  match (e1 ?= e2)%Z with
  | Lt => Lt
  | Gt => Gt
  | Eq => Pos.compare_cont Eq m1 m2
  end = (Z.pos m1 * 2 ^ (e1 + 1074) ?= Z.pos m2 * 2 ^ (e2 + 1074))%Z.
Proof.
  intros B1 B2. destruct (Z.compare_spec e1 e2) as [-> | H | H]; symmetry.
  - rewrite <- Zmult_compare_compat_r.
    + reflexivity.
    + apply Z.lt_gt, Z.pow_pos_nonneg; [lia|]. apply bounded_inv in B2. lia.
  - apply Z.compare_lt_iff. now apply scaled_lt.
  - apply Z.compare_gt_iff. now apply scaled_lt.
Qed.

Lemma SFcompare_ulps (x y : spec_float) :
  valid_binary x = true -> valid_binary y = true ->
  finite x = true -> finite y = true ->
  SFcompare x y = Some (JS.ulps x ?= JS.ulps y)%Z.
Proof.
  destruct x as [sx| | |sx mx ex], y as [sy| | |sy my ey]; try discriminate;
    intros Vx Vy _ _; simpl in Vx, Vy.
  - reflexivity.
  - apply bounded_inv in Vy as (R & _).
    assert (0 < Z.pos my * 2 ^ (ey + 1074))%Z
      by (apply Z.mul_pos_pos; [lia | apply Z.pow_pos_nonneg; lia]).
    destruct sy; cbn [SFcompare JS.ulps cond_Zopp]; f_equal; symmetry;
      [apply Z.compare_gt_iff | apply Z.compare_lt_iff]; lia.
  - apply bounded_inv in Vx as (R & _).
    assert (0 < Z.pos mx * 2 ^ (ex + 1074))%Z
      by (apply Z.mul_pos_pos; [lia | apply Z.pow_pos_nonneg; lia]).
    destruct sx; cbn [SFcompare JS.ulps cond_Zopp]; f_equal; symmetry;
      [apply Z.compare_lt_iff | apply Z.compare_gt_iff]; lia.
  - pose proof (scaled_compare _ _ _ _ Vx Vy) as C.
    pose proof (scaled_compare _ _ _ _ Vy Vx) as C'.
    apply bounded_inv in Vx as (Rx & _). apply bounded_inv in Vy as (Ry & _).
    assert (0 < Z.pos mx * 2 ^ (ex + 1074))%Z
      by (apply Z.mul_pos_pos; [lia | apply Z.pow_pos_nonneg; lia]).
    assert (0 < Z.pos my * 2 ^ (ey + 1074))%Z
      by (apply Z.mul_pos_pos; [lia | apply Z.pow_pos_nonneg; lia]).
    destruct sx, sy; cbn [SFcompare JS.ulps cond_Zopp]; f_equal.
    + rewrite Z.compare_opp. rewrite <- C'.
      rewrite (Z.compare_antisym ey ex). rewrite (Pos.compare_cont_antisym).
      destruct (ey ?= ex)%Z; reflexivity.
    + symmetry. apply Z.compare_lt_iff. lia.
    + symmetry. apply Z.compare_gt_iff. lia.
    + exact C.
Qed.


Lemma Qcompare_same_den (a b : Z) (d : positive) :
  (a # d ?= b # d) = (a ?= b)%Z.
Proof.
  unfold Qcompare; cbn [Qnum Qden]. symmetry.
  apply Zmult_compare_compat_r. reflexivity.
Qed.

Lemma valueOf_Fin_inv (x : JS.number) (q : Q) :
  JS.valueOf x = JS.Fin q ->
  finite (Prim2SF x) = true /\ q = JS.ulps (Prim2SF x) # JS.ulpDen.
Proof.
  unfold JS.valueOf.
  destruct (Prim2SF x); cbn [JS.SF2value finite]; intros [= <-]; auto.
Qed.

(** Comparison of finite numbers is comparison of their values. *)
Lemma compare_Fin {x y : JS.number} {p q : Q} :
  JS.valueOf x = JS.Fin p -> JS.valueOf y = JS.Fin q ->
  SFcompare (Prim2SF x) (Prim2SF y) = Some (p ?= q).
Proof.
  intros Hx Hy.
  apply valueOf_Fin_inv in Hx as (Fx & ->). apply valueOf_Fin_inv in Hy as (Fy & ->).
  rewrite Qcompare_same_den.
  apply SFcompare_ulps; auto using Prim2SF_valid.
Qed.

Lemma lt_Fin {x y : JS.number} {p q : Q} :
  JS.valueOf x = JS.Fin p -> JS.valueOf y = JS.Fin q ->
  (JS.lt x y = true <-> p < q).
Proof.
  intros Hx Hy. unfold JS.lt. rewrite ltb_spec. unfold SFltb.
  rewrite (compare_Fin Hx Hy), Qlt_alt.
  destruct (p ?= q); split; congruence.
Qed.

Lemma ge_Fin {x y : JS.number} {p q : Q} :
  JS.valueOf x = JS.Fin p -> JS.valueOf y = JS.Fin q ->
  (JS.ge x y = true <-> q <= p).
Proof.
  intros Hx Hy. unfold JS.ge. rewrite leb_spec. unfold SFleb.
  rewrite (compare_Fin Hy Hx), Qle_alt.
  destruct (q ?= p); split; congruence.
Qed.

Lemma strictEq_Fin {x y : JS.number} {p q : Q} :
  JS.valueOf x = JS.Fin p -> JS.valueOf y = JS.Fin q ->
  (JS.strictEq x y = true <-> p == q).
Proof.
  intros Hx Hy. unfold JS.strictEq. rewrite eqb_spec. unfold SFeqb.
  rewrite (compare_Fin Hx Hy), Qeq_alt.
  destruct (p ?= q); split; congruence.
Qed.

Lemma Qle_bool_false (a q : Q) : Qle_bool a q = false <-> q < a.
Proof.
  split.
  - intros E. apply Qnot_le_lt. intros Hle. apply Qle_bool_iff in Hle. congruence.
  - intros Hlt. destruct (Qle_bool a q) eqn:E; [|reflexivity].
    apply Qle_bool_iff in E. exfalso. revert Hlt. now apply Qle_not_lt.
Qed.

(** The same as boolean tests of the values. *)
Lemma lt_Fin_bool {x y : JS.number} {p q : Q} :
  JS.valueOf x = JS.Fin p -> JS.valueOf y = JS.Fin q ->
  JS.lt x y = negb (Qle_bool q p).
Proof.
  intros Hx Hy. destruct (Qle_bool q p) eqn:E; cbn [negb].
  - apply Qle_bool_iff in E. destruct (JS.lt x y) eqn:L; [|reflexivity].
    apply (lt_Fin Hx Hy) in L. lra.
  - apply Qle_bool_false in E. now apply (lt_Fin Hx Hy).
Qed.

Lemma ge_Fin_bool {x y : JS.number} {p q : Q} :
  JS.valueOf x = JS.Fin p -> JS.valueOf y = JS.Fin q ->
  JS.ge x y = Qle_bool q p.
Proof.
  intros Hx Hy. destruct (Qle_bool q p) eqn:E.
  - apply Qle_bool_iff in E. now apply (ge_Fin Hx Hy).
  - apply Qle_bool_false in E. destruct (JS.ge x y) eqn:G; [|reflexivity].
    apply (ge_Fin Hx Hy) in G. lra.
Qed.

(** Comparisons with [NaN] are false; the infinities are the extremes. *)
Lemma lt_NaN_l (x y : JS.number) : JS.valueOf x = JS.NaN -> JS.lt x y = false.
Proof.
  unfold JS.valueOf, JS.lt. rewrite ltb_spec.
  destruct (Prim2SF x); try discriminate. reflexivity.
Qed.

Lemma ge_NaN_l (x y : JS.number) : JS.valueOf x = JS.NaN -> JS.ge x y = false.
Proof.
  unfold JS.valueOf, JS.ge. rewrite leb_spec.
  destruct (Prim2SF x); try discriminate. now destruct (Prim2SF y).
Qed.

Lemma lt_Inf_l (x y : JS.number) (s : bool) (q : Q) :
  JS.valueOf x = JS.Inf s -> JS.valueOf y = JS.Fin q -> JS.lt x y = s.
Proof.
  unfold JS.valueOf, JS.lt. rewrite ltb_spec.
  destruct (Prim2SF x); try discriminate. intros [= ->].
  destruct (Prim2SF y); try discriminate; now destruct s.
Qed.

Lemma ge_Inf_l (x y : JS.number) (s : bool) (q : Q) :
  JS.valueOf x = JS.Inf s -> JS.valueOf y = JS.Fin q -> JS.ge x y = negb s.
Proof.
  unfold JS.valueOf, JS.ge. rewrite leb_spec.
  destruct (Prim2SF x); try discriminate. intros [= ->].
  destruct (Prim2SF y); try discriminate; now destruct s.
Qed.

End NumberFacts.

(** ** Numbers: rounding keeps the sign *)

Section RoundingFacts.
Local Open Scope Z_scope.

(** ** Rounding keeps the sign *)

Lemma shr_1_m (mrs : shr_record) :
  0 <= shr_m mrs -> shr_m (shr_1 mrs) = shr_m mrs / 2.
Proof.
  destruct mrs as [m r s]. cbn [shr_m]. intros Hm.
  destruct m as [|[p|p|]|p]; cbn [shr_1 shr_m]; try lia; try reflexivity.
  - apply Z.div_unique with 1; lia.
  - apply Z.div_unique with 0; lia.
Qed.

Lemma iter_shr_1_m (p : positive) (mrs : shr_record) :
  0 <= shr_m mrs -> shr_m (iter_pos shr_1 p mrs) = shr_m mrs / 2 ^ Z.pos p.
Proof.
  revert mrs. induction p as [p IH | p IH |]; intros mrs Hm; cbn [iter_pos].
  - assert (H1 : 0 <= shr_m (shr_1 mrs))
      by (rewrite shr_1_m by exact Hm; apply Z.div_pos; lia).
    assert (H2 : 0 <= shr_m (iter_pos shr_1 p (shr_1 mrs)))
      by (rewrite IH by exact H1; apply Z.div_pos; [|apply Z.pow_pos_nonneg]; lia).
    rewrite IH, IH, shr_1_m by assumption.
    rewrite !Z.div_div by (try apply Z.pow_pos_nonneg; lia).
    f_equal. rewrite <- Z.pow_add_r, <- Z.pow_succ_r by lia. f_equal. lia.
  - assert (H2 : 0 <= shr_m (iter_pos shr_1 p mrs))
      by (rewrite IH by exact Hm; apply Z.div_pos; [|apply Z.pow_pos_nonneg]; lia).
    rewrite IH, IH by assumption.
    rewrite !Z.div_div by (try apply Z.pow_pos_nonneg; lia).
    f_equal. rewrite <- Z.pow_add_r by lia. f_equal. lia.
  - now rewrite shr_1_m.
Qed.

Lemma shr_m_record_of_loc (m : Z) (l : location) : shr_m (shr_record_of_loc m l) = m.
Proof. now destruct l as [|[| |]]. Qed.

(** [shr_fexp] of a non-negative mantissa is non-negative. *)
Lemma shr_fexp_nonneg (m e : Z) (l : location) :
  0 <= m -> 0 <= shr_m (fst (shr_fexp prec emax m e l)).
Proof.
  intros Hm. unfold shr_fexp, shr.
  destruct (fexp prec emax (Zdigits2 m + e) - e) as [|n|n]; cbn [fst];
    rewrite ?shr_m_record_of_loc; try exact Hm.
  rewrite iter_shr_1_m by (now rewrite shr_m_record_of_loc).
  rewrite shr_m_record_of_loc. apply Z.div_pos; [exact Hm | apply Z.pow_pos_nonneg; lia].
Qed.

Lemma Zdigits2_pos (m : positive) : Zdigits2 (Z.pos m) = Z.pos (digits2_pos m).
Proof. reflexivity. Qed.

(** Above [emin], [shr_fexp] of a positive mantissa is positive, and the
    exponent stays above [emin]. *)
Lemma shr_fexp_pos (m : positive) (e : Z) (l : location) :
  -1074 <= e ->
  0 < shr_m (fst (shr_fexp prec emax (Z.pos m) e l))
  /\ -1074 <= snd (shr_fexp prec emax (Z.pos m) e l).
Proof.
  intros He. unfold shr_fexp, shr. rewrite Zdigits2_pos.
  pose proof (digits2_lower m) as L.
  unfold fexp, SpecFloat.emin, prec, emax.
  set (d := Z.pos (digits2_pos m)) in *.
  destruct (Z.max (d + e - 53) (3 - 1024 - 53) - e) as [|n|n] eqn:En; cbn [fst snd];
    rewrite ?shr_m_record_of_loc; try (split; lia).
  rewrite iter_shr_1_m by (rewrite shr_m_record_of_loc; lia).
  rewrite shr_m_record_of_loc. split; [|lia].
  assert (Z.pos n = d - 53) as -> by lia.
  apply Z.lt_le_trans with (2 ^ 52); [reflexivity|].
  apply Z.div_le_lower_bound; [apply Z.pow_pos_nonneg; lia|].
  rewrite <- Z.pow_add_r by lia.
  replace (d - 53 + 52) with (d - 1) by lia. exact L.
Qed.

Lemma round_nearest_even_ge (m : Z) (l : location) : m <= round_nearest_even m l.
Proof. destruct l as [|[| |]]; cbn; try lia. destruct (Z.even m); lia. Qed.

Lemma binary_round_aux_signed (s : bool) (m e : Z) (l : location) :
  0 <= m -> signed s (binary_round_aux prec emax s m e l).
Proof.
  intros Hm. unfold binary_round_aux.
  pose proof (shr_fexp_nonneg m e l Hm) as H1.
  destruct (shr_fexp prec emax m e l) as [mrs' e']. cbn [fst] in H1.
  pose proof (round_nearest_even_ge (shr_m mrs') (loc_of_shr_record mrs')) as H2.
  pose proof (shr_fexp_nonneg (round_nearest_even (shr_m mrs') (loc_of_shr_record mrs'))
                e' loc_Exact ltac:(lia)) as H3.
  destruct (shr_fexp prec emax _ e' loc_Exact) as [mrs'' e'']. cbn [fst] in H3.
  destruct (shr_m mrs'') as [|p|p]; try lia.
  - constructor.
  - destruct (e'' <=? emax - prec); constructor.
Qed.

Lemma binary_round_aux_nonzero (s : bool) (m : positive) (e : Z) (l : location) :
  -1074 <= e -> nonzero (binary_round_aux prec emax s (Z.pos m) e l).
Proof.
  intros He. unfold binary_round_aux.
  pose proof (shr_fexp_pos m e l He) as [H1 E1].
  destruct (shr_fexp prec emax (Z.pos m) e l) as [mrs' e']. cbn [fst snd] in H1, E1.
  pose proof (round_nearest_even_ge (shr_m mrs') (loc_of_shr_record mrs')) as H2.
  destruct (round_nearest_even (shr_m mrs') (loc_of_shr_record mrs')) as [|m1|m1] eqn:R;
    try lia.
  pose proof (shr_fexp_pos m1 e' loc_Exact E1) as [H3 _].
  destruct (shr_fexp prec emax (Z.pos m1) e' loc_Exact) as [mrs'' e'']. cbn [fst] in H3.
  destruct (shr_m mrs'') as [|p|p]; try lia.
  destruct (e'' <=? emax - prec); constructor.
Qed.

Lemma shl_align_fst (m : positive) (e e' : Z) :
  e' <= e -> Z.pos (fst (shl_align m e e')) = Z.pos m * 2 ^ (e - e').
Proof.
  intros He. unfold shl_align.
  destruct (e' - e) as [|d|d] eqn:E; cbn [fst]; try lia.
  - replace (e - e') with 0 by lia. lia.
  - fold (shift_pos d m). rewrite shift_pos_correct, Z.pow_pos_fold.
    replace (e - e') with (Z.pos d) by lia. lia.
Qed.

Lemma shl_align_snd (m : positive) (e e' : Z) :
  -1074 <= e -> -1074 <= e' -> -1074 <= snd (shl_align m e e').
Proof. intros. unfold shl_align. destruct (e' - e); cbn [snd]; lia. Qed.

Lemma binary_round_nonzero (s : bool) (m : positive) (e : Z) :
  -1074 <= e ->
  nonzero (binary_round prec emax s m e) /\ signed s (binary_round prec emax s m e).
Proof.
  intros He. unfold binary_round.
  pose proof (shl_align_snd m e (fexp prec emax (Z.pos (digits2_pos m) + e)) He) as E.
  destruct (shl_align m e _) as [mz ez]. cbn [snd] in E.
  split.
  - apply binary_round_aux_nonzero, E. unfold fexp, SpecFloat.emin, prec, emax. lia.
  - apply binary_round_aux_signed. lia.
Qed.

Lemma ulps_aligned (s : bool) (m : positive) (e e' : Z) :
  -1074 <= e' <= e ->
  JS.ulps (S754_finite s m e)
  = cond_Zopp s (Z.pos (fst (shl_align m e e'))) * 2 ^ (e' + 1074).
Proof.
  intros He. cbn [JS.ulps]. rewrite shl_align_fst by lia.
  replace (e + 1074) with ((e - e') + (e' + 1074)) by lia.
  rewrite Z.pow_add_r by lia. destruct s; cbn [cond_Zopp]; ring.
Qed.

(** The sign of a difference of finite numbers is the sign of the difference
    of their values. *)
Lemma SFsub_sign (x y : spec_float) :
  valid_binary x = true -> valid_binary y = true ->
  finite x = true -> finite y = true ->
  match JS.ulps y ?= JS.ulps x with
  | Eq => exists s, SF64sub y x = S754_zero s
  | Lt => nonzero (SF64sub y x) /\ signed true (SF64sub y x)
  | Gt => nonzero (SF64sub y x) /\ signed false (SF64sub y x)
  end.
Proof.
  intros Vx Vy Fx Fy.
  destruct x as [sx| | |sx mx ex], y as [sy| | |sy my ey]; try discriminate;
    cbn [valid_binary] in Vx, Vy.
  - cbn [JS.ulps Z.compare]. unfold SF64sub, SFsub. destruct sy, sx; eauto.
  - apply bounded_inv in Vy as (R & _).
    assert (0 < Z.pos my * 2 ^ (ey + 1074))
      by (apply Z.mul_pos_pos; [lia | apply Z.pow_pos_nonneg; lia]).
    unfold SF64sub, SFsub. cbn [JS.ulps].
    destruct sy; cbn [cond_Zopp].
    + replace (_ ?= 0) with Lt by (symmetry; apply Z.compare_lt_iff; lia).
      split; constructor.
    + replace (_ ?= 0) with Gt by (symmetry; apply Z.compare_gt_iff; lia).
      split; constructor.
  - apply bounded_inv in Vx as (R & _).
    assert (0 < Z.pos mx * 2 ^ (ex + 1074))
      by (apply Z.mul_pos_pos; [lia | apply Z.pow_pos_nonneg; lia]).
    unfold SF64sub, SFsub. cbn [JS.ulps].
    destruct sx; cbn [cond_Zopp negb].
    + replace (0 ?= _) with Gt by (symmetry; apply Z.compare_gt_iff; lia).
      split; constructor.
    + replace (0 ?= _) with Lt by (symmetry; apply Z.compare_lt_iff; lia).
      split; constructor.
  - apply bounded_inv in Vx as (Rx & _). apply bounded_inv in Vy as (Ry & _).
    set (ez := Z.min ey ex).
    rewrite (ulps_aligned sy my ey ez), (ulps_aligned sx mx ex ez) by (unfold ez; lia).
    assert (P : 0 < 2 ^ (ez + 1074)) by (apply Z.pow_pos_nonneg; unfold ez; lia).
    unfold SF64sub, SFsub. fold ez.
    set (ay := cond_Zopp sy (Z.pos (fst (shl_align my ey ez)))).
    set (ax := cond_Zopp sx (Z.pos (fst (shl_align mx ex ez)))).
    rewrite <- Zmult_compare_compat_r by lia.
    unfold binary_normalize.
    destruct (ay - ax) as [|d|d] eqn:D.
    + replace (ay ?= ax) with Eq by (symmetry; apply Z.compare_eq_iff; lia). eauto.
    + replace (ay ?= ax) with Gt by (symmetry; apply Z.compare_gt_iff; lia).
      apply binary_round_nonzero. unfold ez; lia.
    + replace (ay ?= ax) with Lt by (symmetry; apply Z.compare_lt_iff; lia).
      apply binary_round_nonzero. unfold ez; lia.
Qed.

End RoundingFacts.

(** ** The classification *)

Section Classification.
Local Open Scope Q_scope.

Lemma constant_intro (c : JS.number) (n : Z) :
  (match JS.valueOf c with
   | JS.Fin q => Qeq_bool q (inject_Z n)
   | _ => false
   end) = true -> constant c n.
Proof.
  unfold constant. destruct (JS.valueOf c) as [| |q]; try discriminate.
  intros H. exists q. split; [reflexivity | now apply Qeq_bool_eq].
Qed.

Lemma constant_1 : constant 1%float 1.
Proof. apply constant_intro. vm_compute. reflexivity. Qed.
Lemma constant_3 : constant 3%float 3.
Proof. apply constant_intro. vm_compute. reflexivity. Qed.
Lemma constant_6 : constant 6%float 6.
Proof. apply constant_intro. vm_compute. reflexivity. Qed.
Lemma constant_9 : constant 9%float 9.
Proof. apply constant_intro. vm_compute. reflexivity. Qed.

Lemma lt_constant {x c : JS.number} {p : Q} {n : Z} :
  JS.valueOf x = JS.Fin p -> constant c n ->
  (JS.lt x c = true <-> p < inject_Z n).
Proof.
  intros Hx (q & Hc & E). rewrite (lt_Fin Hx Hc). now rewrite E.
Qed.

Lemma ge_constant {x c : JS.number} {p : Q} {n : Z} :
  JS.valueOf x = JS.Fin p -> constant c n ->
  (JS.ge x c = true <-> inject_Z n <= p).
Proof.
  intros Hx (q & Hc & E). rewrite (ge_Fin Hx Hc). now rewrite E.
Qed.

Lemma lt_constant_bool {x c : JS.number} {p : Q} {n : Z} :
  JS.valueOf x = JS.Fin p -> constant c n ->
  JS.lt x c = negb (Qle_bool (inject_Z n) p).
Proof.
  intros Hx (q & Hc & E). rewrite (lt_Fin_bool Hx Hc). now rewrite E.
Qed.

Lemma ge_constant_bool {x c : JS.number} {p : Q} {n : Z} :
  JS.valueOf x = JS.Fin p -> constant c n ->
  JS.ge x c = Qle_bool (inject_Z n) p.
Proof.
  intros Hx (q & Hc & E). rewrite (ge_Fin_bool Hx Hc). now rewrite E.
Qed.

(** The cascade of [getGKIZone], read on the value of its argument. *)
Lemma getGKIZone_Fin {gki : JS.number} {q : Q} :
  JS.valueOf gki = JS.Fin q ->
  zone (getGKIZone gki) =
    if Qle_bool 1 q then
      if Qle_bool 3 q then
        if Qle_bool 6 q then if Qle_bool 9 q then none else mild else light
      else moderate
    else deep.
Proof.
  intros H. unfold getGKIZone.
  rewrite (lt_constant_bool H constant_1), (lt_constant_bool H constant_3),
    (lt_constant_bool H constant_6), (lt_constant_bool H constant_9),
    (ge_constant_bool H constant_1), (ge_constant_bool H constant_3),
    (ge_constant_bool H constant_6).
  change (inject_Z 1) with 1. change (inject_Z 3) with 3.
  change (inject_Z 6) with 6. change (inject_Z 9) with 9.
  destruct (Qle_bool 1 q), (Qle_bool 3 q), (Qle_bool 6 q), (Qle_bool 9 q);
    reflexivity.
Qed.

Ltac bands :=
  repeat match goal with
    | H : Qle_bool _ _ = true |- _ => apply Qle_bool_iff in H
    | H : Qle_bool _ _ = false |- _ => apply Qle_bool_false in H
    end;
  repeat split; intros; try discriminate; try reflexivity; lra.

(** C1.  [getGKIZone] is a total function, and on the non-negative values its
    five zones are the half-open bands of the specification: a number of
    value [q >= 0] is classified deep exactly when [q < 1], moderate exactly
    when [1 <= q < 3], light exactly when [3 <= q < 6], mild exactly when
    [6 <= q < 9], and not in ketosis exactly when [9 <= q].  The bands are
    disjoint and cover [[0, oo)], and each of 1, 3, 6, 9 falls in the band it
    opens. *)
Theorem getGKIZone_partition (gki : JS.number) (q : Q) :
  JS.valueOf gki = JS.Fin q -> 0 <= q ->
  (q < 1 <-> zone (getGKIZone gki) = deep) /\
  (1 <= q /\ q < 3 <-> zone (getGKIZone gki) = moderate) /\
  (3 <= q /\ q < 6 <-> zone (getGKIZone gki) = light) /\
  (6 <= q /\ q < 9 <-> zone (getGKIZone gki) = mild) /\
  (9 <= q <-> zone (getGKIZone gki) = none).
Proof.
  intros H _. rewrite (getGKIZone_Fin H).
  destruct (Qle_bool 1 q) eqn:E1; [destruct (Qle_bool 3 q) eqn:E3;
    [destruct (Qle_bool 6 q) eqn:E6; [destruct (Qle_bool 9 q) eqn:E9|]|]|];
    bands.
Qed.

(** The boundary values 1, 3, 6 and 9, each in its upper band. *)
Lemma getGKIZone_partition_boundaries :
  zone (getGKIZone 1%float) = moderate /\ zone (getGKIZone 3%float) = light
  /\ zone (getGKIZone 6%float) = mild /\ zone (getGKIZone 9%float) = none.
Proof.
  assert (V : forall x, JS.isFinite x = true -> JS.valueOf x = JS.Fin (JS.exactQ x))
    by (intros x; unfold JS.isFinite, JS.exactQ; now destruct (JS.valueOf x)).
  assert (P : forall x, Qle_bool 0 (JS.exactQ x) = true -> 0 <= JS.exactQ x)
    by (intros x; apply Qle_bool_iff).
  split; [|split; [|split]].
  - apply (getGKIZone_partition 1%float (JS.exactQ 1%float));
      [apply V | apply P | split; apply Qle_bool_iff || apply Qle_bool_false];
      vm_compute; reflexivity.
  - apply (getGKIZone_partition 3%float (JS.exactQ 3%float));
      [apply V | apply P | split; apply Qle_bool_iff || apply Qle_bool_false];
      vm_compute; reflexivity.
  - apply (getGKIZone_partition 6%float (JS.exactQ 6%float));
      [apply V | apply P | split; apply Qle_bool_iff || apply Qle_bool_false];
      vm_compute; reflexivity.
  - apply (getGKIZone_partition 9%float (JS.exactQ 9%float));
      [apply V | apply P | apply Qle_bool_iff]; vm_compute; reflexivity.
Defined.

(** C10.  [getGKIZone] is defined on every number, not only on the
    non-negative values: a negative value, finite or infinite, is classified
    deep, and [NaN], for which every comparison is false, is classified not in
    ketosis (as is the positive infinity). *)
Theorem getGKIZone_negative_and_NaN (gki : JS.number) :
  (forall q : Q, JS.valueOf gki = JS.Fin q -> q < 0 -> zone (getGKIZone gki) = deep)
  /\ (JS.valueOf gki = JS.Inf true -> zone (getGKIZone gki) = deep)
  /\ (JS.valueOf gki = JS.NaN -> zone (getGKIZone gki) = none)
  /\ (JS.valueOf gki = JS.Inf false -> zone (getGKIZone gki) = none).
Proof.
  split; [|split; [|split]].
  - intros q H Hq. rewrite (getGKIZone_Fin H).
    assert (Qle_bool 1 q = false) as -> by (apply Qle_bool_false; lra).
    reflexivity.
  - intros H. unfold getGKIZone.
    destruct constant_1 as (c & Hc & _).
    now rewrite (lt_Inf_l _ _ _ _ H Hc).
  - intros H. unfold getGKIZone.
    rewrite !(lt_NaN_l _ _ H), !andb_false_r. reflexivity.
  - intros H. unfold getGKIZone.
    destruct constant_1 as (c1 & H1 & _). destruct constant_3 as (c3 & H3 & _).
    destruct constant_6 as (c6 & H6 & _). destruct constant_9 as (c9 & H9 & _).
    rewrite (lt_Inf_l _ _ _ _ H H1), (lt_Inf_l _ _ _ _ H H3),
      (lt_Inf_l _ _ _ _ H H6), (lt_Inf_l _ _ _ _ H H9), !andb_false_r.
    reflexivity.
Qed.

(** A stored index that does not parse, and a negative index. *)
Lemma getGKIZone_negative_and_NaN_examples :
  zone (getGKIZone (JS.parseFloat "not a number")) = none
  /\ zone (getGKIZone (JS.parseFloat "-0.5")) = deep
  /\ zone (getGKIZone neg_infinity) = deep.
Proof.
  split; [|split].
  - apply (proj1 (proj2 (proj2 (getGKIZone_negative_and_NaN
                                   (JS.parseFloat "not a number"))))).
    vm_compute; reflexivity.
  - apply (proj1 (getGKIZone_negative_and_NaN (JS.parseFloat "-0.5"))
             (JS.exactQ (JS.parseFloat "-0.5"))).
    + vm_compute; reflexivity.
    + apply Qle_bool_false. vm_compute; reflexivity.
  - apply (proj1 (proj2 (getGKIZone_negative_and_NaN neg_infinity))).
    vm_compute; reflexivity.
Defined.

(** C3.  [convertGlucoseToMmol] divides a value in mg/dL by the constant 18
    and returns a value in mmol/L as it is; 90 mg/dL is 5, and with ketones
    3.0 the index is the text 1.7. *)
Theorem convertGlucoseToMmol_divides_by_18 :
  (forall glucose : JS.number,
      convertGlucoseToMmol glucose mg_dL = (glucose / 18)%float
      /\ convertGlucoseToMmol glucose mmol_L = glucose)
  /\ constant 18%float 18
  /\ convertGlucoseToMmol 90%float mg_dL = 5%float
  /\ calculateGKI 90%float 3%float mg_dL = "1.7"%string.
Proof.
  split; [|split; [|split]].
  - intros glucose. split; reflexivity.
  - apply constant_intro. vm_compute. reflexivity.
  - vm_compute. reflexivity.
  - vm_compute. reflexivity.
Qed.

End Classification.

(** ** Programs and their runs *)

Section Handlers.
Local Open Scope string_scope.

Lemma exec_bind {W A B : Type} (h : handler W) (p : prog A) (f : A -> prog B) (w : W) :
  exec h (bind p f) w =
    let '(a, w1, t1) := exec h p w in
    let '(b, w2, t2) := exec h (f a) w1 in
    (b, w2, (t1 ++ t2)%list).
Proof.
  revert w. induction p as [a | X e k IH]; intros w; cbn [bind exec].
  - now destruct (exec h (f a) w) as [[b w2] t2].
  - destruct (h X e w) as [x w']. rewrite IH.
    destruct (exec h (k x) w') as [[a w1] t1].
    now destruct (exec h (f a) w1) as [[b w2] t2].
Qed.

Lemma exec_trigger {W X : Type} (h : handler W) (e : event X) (w : W) :
  exec h (trigger e) w = (fst (h X e w), snd (h X e w), [Did e (fst (h X e w))]).
Proof. cbn. now destruct (h X e w). Qed.

(** The two tests of the add request's [onsuccess] handler, on the shape of
    the key. *)
Lemma typeof_undefined (id : JS.any) :
  JS.typeof id = "undefined" <-> id = JS.Undefined.
Proof. destruct id; cbn; split; congruence. Qed.

Lemma typeof_number (id : JS.any) :
  JS.typeof id = "number" <-> exists n, id = JS.Number n.
Proof.
  destruct id; cbn; split; try congruence; try (intros [n H]; congruence).
  intros _. eauto.
Qed.

Lemma addedKey_cases (id : JS.any) :
  App.addedKey id =
    if JS.typeof id =? "undefined"
    then Rejected (Error messages.error.errorSavingEntry)
    else if negb (JS.typeof id =? "number")
         then Rejected (Error (messages.error.errorSavingEntryInvalidKeyType (JS.typeof id)))
         else match id with
              | JS.Number n => Resolved n
              | _ => Rejected (Error messages.error.errorSavingEntry)
              end.
Proof. destruct id; reflexivity. Qed.

(** C5.  When the database opens and the add request succeeds with the key
    [id], [addEntry] settles on the key: an absent key rejects with the plain
    save error; a key that is present and not a number rejects with a
    message that names its type, and that message is not the plain one; a
    text key rejects with "Failed to save entry: expected a number, but got a
    string"; a number resolves with that number. *)
Theorem addEntry_checks_key
  (W : Type) (h : handler W) (w w1 w2 : W) (entry : Entry.t) (db : IDBDatabase) (id : JS.any) :
  h _ (IndexedDBOpen dbName 1) w = (OnSuccess db, w1) ->
  h _ (StoreAdd db objectStoreName entry) w1 = (OnSuccess id, w2) ->
  (id = JS.Undefined ->
     result h (App.addEntry entry) w = Rejected (Error messages.error.errorSavingEntry)) /\
  (id <> JS.Undefined -> JS.typeof id <> "number" ->
     result h (App.addEntry entry) w =
       Rejected (Error (messages.error.errorSavingEntryInvalidKeyType (JS.typeof id)))
     /\ messages.error.errorSavingEntryInvalidKeyType (JS.typeof id)
        <> messages.error.errorSavingEntry) /\
  (forall s, id = JS.Str s ->
     result h (App.addEntry entry) w =
       Rejected (Error ("Failed to save entry: " ++ "expected a number, but got a string"))) /\
  (forall n, id = JS.Number n -> result h (App.addEntry entry) w = Resolved n).
Proof.
  intros Hopen Hadd.
  assert (R : result h (App.addEntry entry) w = App.addedKey id).
  { unfold result, App.addEntry, App.openDatabase, trigger. cbn [bind exec].
    rewrite Hopen. cbn [bind exec]. rewrite Hadd. reflexivity. }
  rewrite R. split; [|split; [|split]].
  - now intros ->.
  - intros Hu Hn. split.
    + destruct id; cbn in *; congruence.
    + unfold messages.error.errorSavingEntryInvalidKeyType, messages.error.errorSavingEntry.
      cbn. discriminate.
  - now intros s ->.
  - now intros n ->.
Qed.

(** A store that assigns the text key "entry-1". *)
Lemma addEntry_checks_key_text_key :
  result (Env.scripted Env.textKeys) (App.addEntry Env.older) tt
  = Rejected (Error "Failed to save entry: expected a number, but got a string").
Proof.
  apply (proj1 (proj2 (proj2
           (addEntry_checks_key unit (Env.scripted Env.textKeys) tt tt tt Env.older
              Env.connection (JS.Str "entry-1") eq_refl eq_refl))) "entry-1").
  reflexivity.
Defined.


Lemma unit_eta (u : unit) : u = tt.
Proof. now destruct u. Qed.

Lemma exec_handleSubmit_rejected {W : Type} (h : handler W) (st : App.state) (w : W) :
  App.rejects st = true ->
  exec h (App.handleSubmit st) w =
    (st, snd (h _ (Alert messages.error.invalidInput) (snd (h _ PreventDefault w))),
     [Did PreventDefault tt; Did (Alert messages.error.invalidInput) tt]).
Proof.
  intros R. unfold App.handleSubmit, trigger. cbn [bind exec]. rewrite R. cbn [bind exec].
  destruct (h unit PreventDefault w) as [u w0]. cbn [snd].
  destruct (h unit (Alert messages.error.invalidInput) w0) as [u' w1]. cbn [snd].
  now rewrite (unit_eta u), (unit_eta u').
Qed.

Lemma exec_handleSubmit_accepted {W : Type} (h : handler W) (st : App.state) (w : W) :
  App.rejects st = false ->
  exec h (App.handleSubmit st) w =
    let (entry, w1) := submitted h st w in
    let '(r, w2, t) := exec h (App.addEntry entry) w1 in
    let start := [Did PreventDefault tt; Did DateGetTime (Entry.timestamp entry)] in
    match r with
    | Resolved id =>
        (App.setKetones "" (App.setGlucose ""
           (App.setEntries (Entry.withId entry id :: App.entries st) st)),
         w2, (start ++ t)%list)
    | Rejected error =>
        let w3 := snd (h _ (ConsoleError "Error adding entry:" (Some error)) w2) in
        let message := messages.error.errorSavingEntryDetailed (App.reasonOf error) in
        (st, snd (h _ (Alert message) w3),
         (start ++ t ++ [Did (ConsoleError "Error adding entry:" (Some error)) tt;
                         Did (Alert message) tt])%list)
    end.
Proof.
  intros R. unfold App.handleSubmit, submitted, trigger. cbn [bind exec]. rewrite R.
  destruct (h unit PreventDefault w) as [u w0]. cbn [bind exec snd fst].
  destruct (h JS.number DateGetTime w0) as [now w1]. cbn [snd fst].
  rewrite exec_bind.
  destruct (exec h (App.addEntry (App.newEntry st now)) w1) as [[r w2] t].
  rewrite (unit_eta u). destruct r as [id | error]; cbn [exec bind].
  - now rewrite app_nil_r.
  - destruct (h unit (ConsoleError "Error adding entry:" (Some error)) w2) as [u1 w3].
    cbn [snd].
    destruct (h unit (Alert _) w3) as [u2 w4]. cbn [snd].
    now rewrite (unit_eta u1), (unit_eta u2).
Qed.

Lemma exec_handleDelete {W : Type} (h : handler W) (id : JS.number) (st : App.state) (w : W) :
  exec h (App.handleDelete (Some id) st) w =
    let (confirmed, w1) := h _ (Confirm confirmation) w in
    if confirmed then
      let '(r, w2, t) := exec h (App.deleteEntry (Some id)) w1 in
      match r with
      | Resolved _ =>
          (App.setEntries (filter (App.idDiffers id) (App.entries st)) st, w2,
           Did (Confirm confirmation) true :: t)
      | Rejected error =>
          (st, snd (h _ (Alert (deletionMessage error)) w2),
           (Did (Confirm confirmation) true :: t ++ [Did (Alert (deletionMessage error)) tt])%list)
      end
    else (st, w1, [Did (Confirm confirmation) false]).
Proof.
  unfold App.handleDelete, trigger, confirmation. cbn [bind exec].
  destruct (h bool _ w) as [[|] w1]; cbn [negb]; [|reflexivity].
  rewrite exec_bind.
  destruct (exec h (App.deleteEntry (Some id)) w1) as [[r w2] t].
  destruct r as [u | error].
  - cbn [exec]. now rewrite app_nil_r.
  - cbn [exec bind]. fold (deletionMessage error).
    destruct (h unit (Alert _) w2) as [u2 w4]. cbn [snd].
    now rewrite (unit_eta u2).
Qed.

(** The test of the handler.  A submission whose glucose field is empty, or
    whose ketone field is empty or parses to zero, is rejected: the one
    validation message is shown, nothing is computed or sent to the store,
    and the state, its entries among it, is unchanged. *)
Theorem handleSubmit_rejects_empty_or_zero
  (W : Type) (h : handler W) (w : W) (st : App.state) :
  App.glucose st = "" \/ App.ketones st = ""
  \/ JS.strictEq (JS.parseFloat (App.ketones st)) 0%float = true ->
  result h (App.handleSubmit st) w = st
  /\ trace h (App.handleSubmit st) w =
       [Did PreventDefault tt; Did (Alert messages.error.invalidInput) tt].
Proof.
  intros H.
  assert (R : App.rejects st = true).
  { unfold App.rejects. destruct H as [-> | [-> | ->]]; cbn [App.falsy orb];
      now rewrite ?orb_true_r. }
  unfold result, trace. now rewrite (exec_handleSubmit_rejected h st w R).
Qed.

(** Glucose 100 mg/dL with ketones 0. *)
Lemma handleSubmit_rejects_empty_or_zero_ketones_0 :
  result Env.run (App.handleSubmit (Env.form "100" "0" mg_dL [Env.older])) Env.fresh
  = Env.form "100" "0" mg_dL [Env.older]
  /\ trace Env.run (App.handleSubmit (Env.form "100" "0" mg_dL [Env.older])) Env.fresh
     = [Did PreventDefault tt; Did (Alert messages.error.invalidInput) tt].
Proof.
  apply (handleSubmit_rejects_empty_or_zero Env.browser Env.run Env.fresh
           (Env.form "100" "0" mg_dL [Env.older])).
  right. right. vm_compute. reflexivity.
Defined.

(** The fields are number inputs, which report text that is missing or not
    numeric as the empty string: whatever is typed, such text is rejected. *)
Lemma handleSubmit_rejects_invalid_typed_input
  (W : Type) (h : handler W) (w : W) (st : App.state) (typedGlucose typedKetones : string) :
  let st' := App.setKetones (numberInputValue typedKetones)
               (App.setGlucose (numberInputValue typedGlucose) st) in
  validFloatingPointNumber typedGlucose = false
  \/ validFloatingPointNumber typedKetones = false
  \/ JS.strictEq (JS.parseFloat typedKetones) 0%float = true ->
  result h (App.handleSubmit st') w = st'
  /\ trace h (App.handleSubmit st') w =
       [Did PreventDefault tt; Did (Alert messages.error.invalidInput) tt].
Proof.
  intros st' H.
  assert (R : App.rejects st' = true).
  { unfold App.rejects, st', numberInputValue.
    cbn [App.glucose App.ketones App.setKetones App.setGlucose].
    destruct H as [H | [H | H]].
    - now rewrite H.
    - rewrite H. cbn [App.falsy]. now rewrite orb_true_r.
    - destruct (validFloatingPointNumber typedKetones).
      + rewrite H. now rewrite orb_true_r.
      + cbn [App.falsy]. now rewrite orb_true_r. }
  unfold result, trace. now rewrite (exec_handleSubmit_rejected h st' w R).
Qed.

(** C6.  A failure of the store leaves the state of the component as it
    was.  When [addEntry] rejects during [handleSubmit], the state after the
    handler is the state before it (no entry added, the fields not cleared),
    and what the handler did after [addEntry] is one log line and one
    notification.  When [deleteEntry] rejects during [handleDelete], the state
    is unchanged as well (no entry removed), and the handler ends with one
    notification. *)
Theorem store_failure_keeps_state :
  (forall (W : Type) (h : handler W) (w : W) (st : App.state) (error : thrown),
      App.rejects st = false ->
      result h (App.addEntry (fst (submitted h st w))) (snd (submitted h st w))
        = Rejected error ->
      result h (App.handleSubmit st) w = st
      /\ trace h (App.handleSubmit st) w =
           ([Did PreventDefault tt; Did DateGetTime (Entry.timestamp (fst (submitted h st w)))]
            ++ trace h (App.addEntry (fst (submitted h st w))) (snd (submitted h st w))
            ++ [Did (ConsoleError "Error adding entry:" (Some error)) tt;
                Did (Alert (messages.error.errorSavingEntryDetailed (App.reasonOf error))) tt])%list)
  /\
  (forall (W : Type) (h : handler W) (w : W) (st : App.state) (id : JS.number) (error : thrown),
      fst (h _ (Confirm confirmation) w) = true ->
      result h (App.deleteEntry (Some id)) (snd (h _ (Confirm confirmation) w))
        = Rejected error ->
      result h (App.handleDelete (Some id) st) w = st
      /\ trace h (App.handleDelete (Some id) st) w =
           (Did (Confirm confirmation) true
            :: trace h (App.deleteEntry (Some id)) (snd (h _ (Confirm confirmation) w))
            ++ [Did (Alert (deletionMessage error)) tt])%list).
Proof.
  split.
  - intros W h w st error R. unfold result, trace.
    rewrite (exec_handleSubmit_accepted h st w R).
    destruct (submitted h st w) as [entry w1]. cbn [fst snd].
    destruct (exec h (App.addEntry entry) w1) as [[r w2] t]. cbn [fst snd].
    intros ->. cbn [fst snd]. split; reflexivity.
  - intros W h w st id error. unfold result, trace. rewrite exec_handleDelete.
    destruct (h bool (Confirm confirmation) w) as [c w1]. cbn [fst snd].
    intros ->.
    destruct (exec h (App.deleteEntry (Some id)) w1) as [[r w2] t]. cbn [fst snd].
    intros ->. split; reflexivity.
Qed.

(** Storage that cannot be opened, at a submission and at a deletion. *)
Lemma store_failure_keeps_state_unavailable :
  result (Env.scripted Env.unavailable)
    (App.handleSubmit (Env.form "90" "3.0" mg_dL [Env.older])) tt
  = Env.form "90" "3.0" mg_dL [Env.older]
  /\ result (Env.scripted Env.readOnly)
       (App.handleDelete (Some 1%float) (Env.form "" "" mg_dL [Env.older])) tt
     = Env.form "" "" mg_dL [Env.older].
Proof.
  split.
  - apply (proj1 store_failure_keeps_state unit (Env.scripted Env.unavailable) tt
             (Env.form "90" "3.0" mg_dL [Env.older])
             (Error messages.error.failedOpeningDB)).
    + vm_compute. reflexivity.
    + reflexivity.
  - apply (proj2 store_failure_keeps_state unit (Env.scripted Env.readOnly) tt
             (Env.form "" "" mg_dL [Env.older]) 1%float
             (Error messages.error.errorDeletingEntry)).
    + reflexivity.
    + reflexivity.
Defined.

(** C9.  Entries are created and deleted, never updated.  After a successful
    create the list is the new entry, with the key the store assigned and the
    index computed from the fields at that moment, in front of the list as it
    was.  After a successful delete the list is the list as it was without
    the entries whose [id] is the given one, in the same order: an entry is
    in it exactly when it was there and its [id] differs. *)
Theorem entries_created_or_deleted_never_updated :
  (forall (W : Type) (h : handler W) (w : W) (st : App.state) (id : JS.number),
      App.rejects st = false ->
      result h (App.addEntry (fst (submitted h st w))) (snd (submitted h st w))
        = Resolved id ->
      App.entries (result h (App.handleSubmit st) w)
        = Entry.withId (fst (submitted h st w)) id :: App.entries st
      /\ Entry.gki (fst (submitted h st w))
         = calculateGKI (JS.parseFloat (App.glucose st)) (JS.parseFloat (App.ketones st))
             (App.glucoseUnit st))
  /\
  (forall (W : Type) (h : handler W) (w : W) (st : App.state) (id : JS.number),
      fst (h _ (Confirm confirmation) w) = true ->
      result h (App.deleteEntry (Some id)) (snd (h _ (Confirm confirmation) w))
        = Resolved tt ->
      App.entries (result h (App.handleDelete (Some id) st) w)
        = filter (App.idDiffers id) (App.entries st)
      /\ forall entry : Entry.t,
           In entry (App.entries (result h (App.handleDelete (Some id) st) w))
           <-> In entry (App.entries st)
               /\ match Entry.id entry with
                  | Some i => JS.strictEq i id = false
                  | None => True
                  end).
Proof.
  split.
  - intros W h w st id R. unfold result.
    rewrite (exec_handleSubmit_accepted h st w R).
    destruct (submitted h st w) as [entry w1] eqn:S. cbn [fst snd].
    destruct (exec h (App.addEntry entry) w1) as [[r w2] t]. cbn [fst snd].
    intros ->. cbn [fst snd]. split; [reflexivity|].
    unfold submitted in S. injection S as <- _. reflexivity.
  - intros W h w st id. unfold result. rewrite exec_handleDelete.
    destruct (h bool (Confirm confirmation) w) as [c w1]. cbn [fst snd].
    intros ->.
    destruct (exec h (App.deleteEntry (Some id)) w1) as [[r w2] t]. cbn [fst snd].
    intros ->. cbn [fst App.entries App.setEntries]. split; [reflexivity|].
    intros entry. rewrite filter_In. unfold App.idDiffers.
    destruct (Entry.id entry) as [i|].
    + rewrite negb_true_iff. tauto.
    + tauto.
Qed.

(** A second measurement is added in front of the first, and the first is
    then deleted. *)
Lemma entries_created_or_deleted_never_updated_example :
  App.entries (result Env.run (App.handleSubmit (Env.form "4.5" "1.5" mmol_L [Env.older]))
                 (Env.stored Env.fresh [Env.older] 2))
  = [Entry.mk (Some 2%float) 4.5%float mmol_L 1.5%float "3.0" 1000%float; Env.older]
  /\ App.entries (result Env.run
                    (App.handleDelete (Some 1%float) (Env.form "" "" mg_dL [Env.newer; Env.older]))
                    (Env.stored Env.fresh [Env.older; Env.newer] 3))
     = [Env.newer].
Proof.
  split.
  - apply (proj1 entries_created_or_deleted_never_updated Env.browser Env.run
             (Env.stored Env.fresh [Env.older] 2)
             (Env.form "4.5" "1.5" mmol_L [Env.older]) 2%float).
    + vm_compute. reflexivity.
    + vm_compute. reflexivity.
  - apply (proj2 entries_created_or_deleted_never_updated Env.browser Env.run
             (Env.stored Env.fresh [Env.older; Env.newer] 3)
             (Env.form "" "" mg_dL [Env.newer; Env.older]) 1%float).
    + reflexivity.
    + reflexivity.
Defined.





End Handlers.

(** ** The history at startup *)

Section History.
Local Open Scope Q_scope.

Lemma isFinite_valueOf (x : JS.number) :
  JS.isFinite x = true -> JS.valueOf x = JS.Fin (JS.exactQ x).
Proof. unfold JS.isFinite, JS.exactQ. now destruct (JS.valueOf x). Qed.

Lemma isFinite_Prim2SF (x : JS.number) :
  JS.isFinite x = true -> finite (Prim2SF x) = true.
Proof. unfold JS.isFinite, JS.valueOf. now destruct (Prim2SF x). Qed.

Lemma exactQ_ulps (x : JS.number) :
  JS.isFinite x = true -> JS.exactQ x = JS.ulps (Prim2SF x) # JS.ulpDen.
Proof.
  intros F. apply isFinite_valueOf in F. now apply valueOf_Fin_inv in F as [_ ->].
Qed.

Lemma SFeqb_refl_signed (s : bool) (r : spec_float) : signed s r -> SFeqb r r = true.
Proof.
  intros []; unfold SFeqb; cbn [SFcompare].
  - reflexivity.
  - rewrite Z.compare_refl, Pos.compare_cont_refl. now destruct s.
  - now destruct s.
Qed.

(** A difference of finite numbers is never [NaN], and it is at most zero
    exactly when the values say so. *)
Lemma sub_finite (x y : JS.number) :
  JS.isFinite x = true -> JS.isFinite y = true ->
  is_nan (y - x)%float = false
  /\ ((y - x <=? 0)%float = Qle_bool (JS.exactQ y) (JS.exactQ x)).
Proof.
  intros Fx Fy.
  rewrite (exactQ_ulps _ Fx), (exactQ_ulps _ Fy).
  pose proof (SFsub_sign (Prim2SF x) (Prim2SF y) (Prim2SF_valid x) (Prim2SF_valid y)
                (isFinite_Prim2SF _ Fx) (isFinite_Prim2SF _ Fy)) as S.
  unfold is_nan. rewrite eqb_spec, leb_spec, sub_spec.
  change (Prim2SF 0) with (S754_zero false).
  unfold Qle_bool; cbn [Qnum Qden].
  rewrite Z.leb_compare, <- Zmult_compare_compat_r by reflexivity.
  destruct (JS.ulps (Prim2SF y) ?= JS.ulps (Prim2SF x))%Z.
  - destruct S as [s ->]. split; reflexivity.
  - destruct S as [N Sg]. rewrite (SFeqb_refl_signed _ _ Sg). split; [reflexivity|].
    destruct Sg; try inversion N; reflexivity.
  - destruct S as [N Sg]. rewrite (SFeqb_refl_signed _ _ Sg). split; [reflexivity|].
    destruct Sg; try inversion N; reflexivity.
Qed.

Lemma sortCompare_byTimestamp (a b : Entry.t) :
  timed a -> timed b ->
  (JS.sortCompare App.byTimestampDescending a b <=? 0)%float
  = Qle_bool (timeOf b) (timeOf a).
Proof.
  intros Fa Fb. unfold JS.sortCompare, App.byTimestampDescending.
  destruct (sub_finite _ _ Fa Fb) as [-> E]. exact E.
Qed.

(** ** Insertion sort *)

Section Sorting.
Variable A : Type.
Variable comparator : A -> A -> JS.number.

Lemma insert_Permutation (x : A) (l : list A) :
  Permutation (JS.insert comparator x l) (x :: l).
Proof.
  induction l as [|y l IH]; cbn [JS.insert].
  - reflexivity.
  - destruct (_ <=? _)%float.
    + reflexivity.
    + rewrite IH. apply perm_swap.
Qed.

Lemma sort_Permutation (l : list A) : Permutation (JS.sort comparator l) l.
Proof.
  induction l as [|x l IH]; cbn [JS.sort fold_right].
  - reflexivity.
  - fold (JS.sort comparator l). rewrite insert_Permutation. now constructor.
Qed.

(** The comparator is consistent on [domain]: it tests a total preorder
    given by a rational key. *)
Variable key : A -> Q.
Variable domain : A -> Prop.
Hypothesis consistent : forall x y, domain x -> domain y ->
  (JS.sortCompare comparator x y <=? 0)%float = Qle_bool (key y) (key x).

Lemma insert_sorted (x : A) (l : list A) :
  domain x -> Forall domain l ->
  StronglySorted (descending key) l -> StronglySorted (descending key) (JS.insert comparator x l).
Proof.
  intros Dx Dl Sl. induction Sl as [|y l Sl IH Hy]; cbn [JS.insert].
  - repeat constructor.
  - inversion Dl as [|? ? Dy Dl']; subst.
    rewrite (consistent x y Dx Dy).
    destruct (Qle_bool (key y) (key x)) eqn:E.
    + apply Qle_bool_iff in E. constructor; [now constructor|].
      constructor; [exact E|].
      eapply Forall_impl; [|exact Hy]. unfold descending. intros z Hz. lra.
    + apply Qle_bool_false in E. constructor; [now apply IH|].
      eapply Permutation_Forall; [symmetry; apply insert_Permutation|].
      constructor; [unfold descending; lra | exact Hy].
Qed.

Lemma sort_sorted (l : list A) :
  Forall domain l -> StronglySorted (descending key) (JS.sort comparator l).
Proof.
  induction 1 as [|x l Dx Dl IH]; cbn [JS.sort fold_right].
  - constructor.
  - apply insert_sorted; auto.
    eapply Permutation_Forall; [symmetry; apply sort_Permutation | exact Dl].
Qed.

End Sorting.
Arguments insert_Permutation {A} comparator x l.
Arguments sort_Permutation {A} comparator l.
Arguments sort_sorted {A} comparator key domain consistent l _.

Lemma sorted_precedes {A : Type} {R : A -> A -> Prop} {a b : A} {l : list A} :
  StronglySorted R l -> precedes a b l -> R a b.
Proof.
  intros S (l1 & l2 & l3 & ->).
  induction l1 as [|c l1 IH]; cbn in S.
  - apply StronglySorted_inv in S as [_ F].
    rewrite Forall_forall in F. apply F.
    apply in_or_app. right. now left.
  - apply StronglySorted_inv in S as [S _]. auto.
Qed.

Lemma precedes_or {A : Type} (a b : A) (l : list A) :
  In a l -> In b l -> a <> b -> precedes a b l \/ precedes b a l.
Proof.
  intros Ha Hb Hab.
  apply in_split in Ha as (l1 & l2 & ->).
  apply in_app_or in Hb as [Hb | [Hb | Hb]].
  - right. apply in_split in Hb as (l3 & l4 & ->).
    exists l3, l4, l2. now rewrite <- app_assoc.
  - contradiction.
  - left. apply in_split in Hb as (l3 & l4 & ->).
    now exists l1, l3, l4.
Qed.

Lemma exec_initDB_loaded {W : Type} (h : handler W) (w w1 w2 : W) (st : App.state)
      (db : IDBDatabase) (stored : list Entry.t) :
  h _ (IndexedDBOpen dbName 1) w = (OnSuccess db, w1) ->
  h _ (StoreGetAll db objectStoreName) w1 = (OnSuccess stored, w2) ->
  result h (App.initDB st) w
  = App.setLoading false (App.setEntries (JS.sort App.byTimestampDescending stored) st).
Proof.
  intros Hopen Hall.
  unfold result, App.initDB, App.openDatabase, App.getAllEntries, trigger.
  cbn [bind exec]. rewrite Hopen. cbn [bind exec]. rewrite Hall. reflexivity.
Qed.

(** C8.  At startup the history is the stored entries in reverse
    chronological order.  When the database opens and the read request
    succeeds with entries whose timestamps are finite (times in milliseconds),
    the displayed list is a permutation of the stored one, and of two stored
    entries with timestamps [t1 < t2] the one of [t2] comes before the one of
    [t1], and never after it. *)
Theorem initDB_displays_newest_first
  (W : Type) (h : handler W) (w w1 w2 : W) (st : App.state)
  (db : IDBDatabase) (stored : list Entry.t) :
  h _ (IndexedDBOpen dbName 1) w = (OnSuccess db, w1) ->
  h _ (StoreGetAll db objectStoreName) w1 = (OnSuccess stored, w2) ->
  Forall timed stored ->
  let displayed := App.entries (result h (App.initDB st) w) in
  Permutation displayed stored
  /\ forall e1 e2 : Entry.t,
       In e1 stored -> In e2 stored ->
       JS.lt (Entry.timestamp e1) (Entry.timestamp e2) = true ->
       precedes e2 e1 displayed /\ ~ precedes e1 e2 displayed.
Proof.
  intros Hopen Hall T displayed.
  assert (E : displayed = JS.sort App.byTimestampDescending stored).
  { unfold displayed. now rewrite (exec_initDB_loaded h w w1 w2 st db stored Hopen Hall). }
  rewrite E. clear E displayed.
  pose proof (sort_Permutation App.byTimestampDescending stored) as P.
  pose proof (sort_sorted App.byTimestampDescending timeOf timed
                sortCompare_byTimestamp stored T) as S.
  split; [exact P|].
  intros e1 e2 I1 I2 L.
  rewrite Forall_forall in T.
  pose proof (lt_Fin (isFinite_valueOf _ (T _ I1)) (isFinite_valueOf _ (T _ I2))) as Q.
  apply Q in L. fold (timeOf e1) in L. fold (timeOf e2) in L.
  assert (N : ~ precedes e1 e2 (JS.sort App.byTimestampDescending stored)).
  { intros Pr. apply (sorted_precedes S) in Pr. unfold descending in Pr. lra. }
  split; [|exact N].
  destruct (precedes_or e2 e1 (JS.sort App.byTimestampDescending stored)) as [Pr | Pr].
  - apply (Permutation_in _ (Permutation_sym P) I2).
  - apply (Permutation_in _ (Permutation_sym P) I1).
  - intros ->. lra.
  - exact Pr.
  - contradiction.
Qed.

(** Two entries stored oldest first. *)
Lemma initDB_displays_newest_first_example :
  precedes Env.newer Env.older
    (App.entries (result (Env.scripted (Env.holding [Env.older; Env.newer]))
                    (App.initDB (App.mkState "" "" mg_dL [] true None)) tt)).
Proof.
  assert (T : Forall timed [Env.older; Env.newer])
    by (repeat constructor; vm_compute; reflexivity).
  apply (proj2 (initDB_displays_newest_first unit
                  (Env.scripted (Env.holding [Env.older; Env.newer])) tt tt tt
                  (App.mkState "" "" mg_dL [] true None) Env.connection
                  [Env.older; Env.newer] eq_refl eq_refl T)
           Env.older Env.newer).
  - left. reflexivity.
  - right. left. reflexivity.
  - vm_compute. reflexivity.
Defined.


End History.

(** ** The index as text *)

Section Index.
Local Open Scope string_scope.

(** ** Decimal digits *)

Lemma string_of_uint_allDigits (u : uint) : allDigits (NilEmpty.string_of_uint u) = true.
Proof. induction u; cbn; auto. Qed.

Lemma decimal_allDigits (n : Z) : allDigits (JS.decimal n) = true.
Proof. apply string_of_uint_allDigits. Qed.

Lemma decimal_nonempty (n : Z) : JS.decimal n <> "".
Proof.
  unfold JS.decimal. destruct (Z.to_N n) as [|p]; cbn [N.to_uint].
  - discriminate.
  - pose proof (Unsigned.to_uint_nonnil p) as H.
    destruct (Pos.to_uint p); [congruence | discriminate ..].
Qed.

Lemma digitsValue_decimal (n : Z) : (0 <= n)%Z -> JS.digitsValue (JS.decimal n) = n.
Proof.
  intros Hn. unfold JS.digitsValue, JS.decimal.
  rewrite NilEmpty.usu, DecimalN.Unsigned.of_to. lia.
Qed.

Lemma digitsValue_zero (s : string) : JS.digitsValue (String "0" s) = JS.digitsValue s.
Proof.
  unfold JS.digitsValue. cbn [NilEmpty.uint_of_string uint_of_char].
  destruct (NilEmpty.uint_of_string s); reflexivity.
Qed.

Lemma digitsValue_zeros (j : nat) (s : string) :
  JS.digitsValue (JS.zeros j ++ s) = JS.digitsValue s.
Proof. induction j; cbn [JS.zeros append]; [|rewrite digitsValue_zero]; auto. Qed.

Lemma allDigits_app (a b : string) : allDigits (a ++ b) = allDigits a && allDigits b.
Proof. induction a; cbn; [|rewrite IHa, andb_assoc]; auto. Qed.

Lemma allDigits_zeros (j : nat) : allDigits (JS.zeros j) = true.
Proof. induction j; cbn; auto. Qed.

Lemma string_length_app (a b : string) : String.length (a ++ b) = (String.length a + String.length b)%nat.
Proof. induction a; cbn; auto. Qed.

(** A non-empty string is its last character after the rest. *)
Lemma split_last_cons (c : ascii) (s : string) :
  exists a d, String c s = a ++ String d ""
    /\ substring 0 (String.length s) (String c s) = a
    /\ substring (String.length s) 1 (String c s) = String d "".
Proof.
  revert c. induction s as [|c' s IH]; intros c.
  - exists "", c. cbn. auto.
  - destruct (IH c') as (a & d & E & Ha & Hd).
    exists (String c a), d. cbn [String.length append].
    split; [now rewrite E | split].
    + change (substring 0 (S (String.length s)) (String c (String c' s)))
        with (String c (substring 0 (String.length s) (String c' s))).
      now rewrite Ha.
    + change (substring (S (String.length s)) 1 (String c (String c' s)))
        with (substring (String.length s) 1 (String c' s)).
      exact Hd.
Qed.

Lemma split_last (s : string) :
  s <> "" ->
  exists a d, s = a ++ String d ""
    /\ substring 0 (String.length s - 1) s = a
    /\ substring (String.length s - 1) 1 s = String d "".
Proof.
  destruct s as [|c s]; [congruence|]. intros _.
  cbn [String.length]. rewrite Nat.sub_1_r. cbn [Nat.pred].
  apply split_last_cons.
Qed.

Lemma spanDigits_app (a rest : string) :
  allDigits a = true ->
  match rest with
  | String c _ => JS.isDigit c = false
  | "" => True
  end ->
  JS.spanDigits (a ++ rest) = (a, rest).
Proof.
  intros Ha Hr. induction a as [|c a IH]; cbn [append].
  - destruct rest as [|c r]; cbn [JS.spanDigits]; [reflexivity | now rewrite Hr].
  - cbn [allDigits] in Ha. apply andb_true_iff in Ha as [Hc Ha].
    cbn [JS.spanDigits]. rewrite Hc, (IH Ha). reflexivity.
Qed.

Lemma isDigit_not_space (c : ascii) : JS.isDigit c = true -> JS.isWhiteSpace c = false.
Proof.
  destruct c as [[|] [|] [|] [|] [|] [|] [|] [|]]; cbn; intros H;
    try discriminate; reflexivity.
Qed.

(** Reading back digits, a point and one digit. *)
Lemma signedLiteral_one_decimal (a : string) (d : ascii) :
  allDigits a = true -> a <> "" -> JS.isDigit d = true ->
  JS.signedLiteral (a ++ String "." (String d ""))
  = (false, Some (JS.Decimal (a ++ String d "") (-1))).
Proof.
  intros Ha Hne Hd.
  assert (S1 : JS.spanDigits (a ++ String "." (String d "")) = (a, String "." (String d "")))
    by (apply spanDigits_app; [exact Ha | reflexivity]).
  assert (L : JS.scanLiteral (a ++ String "." (String d ""))
              = Some (JS.Decimal (a ++ String d "") (-1))).
  { unfold JS.scanLiteral.
    replace (prefix "Infinity" (a ++ String "." (String d ""))) with false.
    - rewrite S1.
      replace (JS.spanDigits (String d "")) with (String d "", "")
        by (cbn [JS.spanDigits]; now rewrite Hd).
      destruct a as [|c a']; [congruence | reflexivity].
    - destruct a as [|c a']; [congruence|].
      cbn [allDigits] in Ha. apply andb_true_iff in Ha as [Hc _].
      destruct c as [[|] [|] [|] [|] [|] [|] [|] [|]]; try discriminate; reflexivity. }
  destruct a as [|c a']; [congruence|].
  cbn [allDigits] in Ha. apply andb_true_iff in Ha as [Hc Ha].
  unfold JS.signedLiteral. cbn [append JS.trimStart].
  rewrite (isDigit_not_space _ Hc). cbn [append] in L.
  destruct c as [[|] [|] [|] [|] [|] [|] [|] [|]]; try discriminate; now rewrite L.
Qed.

Lemma parseFloat_one_decimal (a : string) (d : ascii) :
  allDigits a = true -> a <> "" -> JS.isDigit d = true ->
  JS.parseFloat (a ++ String "." (String d ""))
  = JS.roundQ false (JS.digitsValue (a ++ String d "")) 10
  /\ JS.decimalValue (a ++ String "." (String d ""))
     = Some (JS.MV (a ++ String d "") (-1))
  /\ oneFractionalDigit (a ++ String "." (String d "")) = true.
Proof.
  intros Ha Hne Hd.
  pose proof (signedLiteral_one_decimal a d Ha Hne Hd) as L.
  split; [|split].
  - unfold JS.parseFloat. rewrite L. unfold JS.decimalToNumber.
    change (Z.max (-1) 0) with 0%Z. change (Z.max (- -1) 0) with 1%Z.
    change (10 ^ 0)%Z with 1%Z. change (Z.to_pos (10 ^ 1)) with 10%positive.
    now rewrite Z.mul_1_r.
  - unfold JS.decimalValue. now rewrite L.
  - unfold oneFractionalDigit.
    rewrite (spanDigits_app a (String "." (String d "")) Ha eq_refl).
    destruct a; [congruence | exact Hd].
Qed.


Lemma Qabs_nonneg_eq (q : Q) : 0 <= q -> Qabs q = q.
Proof.
  destruct q as [n d]. unfold Qle, Qabs; cbn [Qnum Qden]. intros H.
  f_equal. lia.
Qed.

Lemma nearestInteger_nonneg (q : Q) : 0 <= q -> (0 <= JS.nearestInteger q)%Z.
Proof.
  intros H. unfold JS.nearestInteger.
  change 0%Z with (Qfloor 0). apply Qfloor_resp_le. lra.
Qed.

Lemma zeros_length (j : nat) : String.length (JS.zeros j) = j.
Proof. induction j; cbn; auto. Qed.

(** The text [toFixed(1)] gives for a value in [[0, 10^21)]. *)
Lemma toFixed_one_decimal (x : JS.number) (q : Q) :
  JS.valueOf x = JS.Fin q -> 0 <= q -> q < inject_Z (10 ^ 21) ->
  exists a d,
    JS.toFixed x 1 = (a ++ String "." (String d ""))%string
    /\ allDigits a = true /\ a <> ""%string /\ JS.isDigit d = true
    /\ JS.digitsValue (a ++ String d "") = JS.nearestInteger (q * 10).
Proof.
  intros Hx H0 H21. unfold JS.toFixed. rewrite Hx.
  apply Qle_bool_iff in H0 as B0. rewrite B0.
  rewrite (Qabs_nonneg_eq _ H0).
  apply Qle_bool_false in H21 as B21. rewrite B21.
  change (inject_Z (10 ^ Z.of_nat 1)) with 10.
  set (n := JS.nearestInteger (q * 10)).
  assert (Hn : (0 <= n)%Z) by (apply nearestInteger_nonneg; lra).
  set (m := (JS.zeros (2 - String.length (JS.decimal n)) ++ JS.decimal n)%string).
  assert (Lm : (2 <= String.length m)%nat).
  { unfold m. rewrite string_length_app, zeros_length. lia. }
  assert (Dm : allDigits m = true).
  { unfold m. now rewrite allDigits_app, allDigits_zeros, decimal_allDigits. }
  assert (Vm : JS.digitsValue m = n).
  { unfold m. now rewrite digitsValue_zeros, digitsValue_decimal. }
  destruct (split_last m) as (a & d & E & Ea & Ed).
  { intros Em. rewrite Em in Lm. cbn in Lm. lia. }
  exists a, d. cbn [Nat.eqb append].
  rewrite Ea, Ed.
  rewrite E, allDigits_app in Dm. cbn [allDigits] in Dm.
  rewrite andb_true_r in Dm. apply andb_true_iff in Dm as [Da Dd].
  repeat split; auto.
  - intros ->. rewrite E in Lm. cbn in Lm. lia.
  - now rewrite <- E.
Qed.

(** ** The quotient of positive numbers *)

Lemma SFdiv_signed (sx sy : bool) (x : spec_float) (my : positive) (ey : Z) :
  signed sx x -> signed (xorb sx sy) (SF64div x (S754_finite sy my ey)).
Proof.
  intros [|mx ex|]; unfold SF64div, SFdiv; try constructor.
  unfold SFdiv_core_binary.
  set (m' := match _ with Z.pos _ => _ | Z0 => _ | Z.neg _ => _ end).
  assert (Hm : (0 <= m')%Z).
  { unfold m'. destruct (_ - _ - _)%Z; try lia.
    rewrite Z.shiftl_mul_pow2 by lia. apply Z.mul_nonneg_nonneg; [lia|].
    apply Z.pow_nonneg. lia. }
  pose proof (Z_div_mod m' (Z.pos my) ltac:(lia)) as D.
  destruct (Z.div_eucl m' (Z.pos my)) as [q r].
  apply binary_round_aux_signed. nia.
Qed.

Lemma positive_finite (x : JS.number) (g : Q) :
  JS.valueOf x = JS.Fin g -> 0 < g ->
  exists m e, Prim2SF x = S754_finite false m e.
Proof.
  intros H Hg. apply valueOf_Fin_inv in H as [F ->].
  unfold Qlt in Hg; cbn [Qnum Qden] in Hg.
  destruct (Prim2SF x) as [s| | |s m e]; try discriminate; cbn [JS.ulps] in Hg.
  destruct s; [|eauto]. cbn [cond_Zopp] in Hg.
  assert (0 <= Z.pos m * 2 ^ (e + 1074))%Z
    by (apply Z.mul_nonneg_nonneg; [lia | apply Z.pow_nonneg; lia]).
  lia.
Qed.

Lemma constant_1e21 : constant 1e21%float (10 ^ 21).
Proof. apply constant_intro. vm_compute. reflexivity. Qed.

Lemma signed_below (x : JS.number) (c : JS.number) (n : Z) :
  signed false (Prim2SF x) -> constant c n -> JS.lt x c = true ->
  JS.valueOf x = JS.Fin (JS.exactQ x)
  /\ 0 <= JS.exactQ x /\ JS.exactQ x < inject_Z n.
Proof.
  intros S C L.
  assert (V : exists q, JS.valueOf x = JS.Fin q /\ 0 <= q).
  { unfold JS.valueOf. inversion S as [E | m e E | E]; cbn [JS.SF2value].
    - eexists; split; [reflexivity|]. cbn. discriminate.
    - eexists; split; [reflexivity|].
      unfold Qle; cbn [Qnum Qden JS.ulps cond_Zopp].
      assert (0 <= Z.pos m * 2 ^ (e + 1074))%Z
        by (apply Z.mul_nonneg_nonneg; [lia | apply Z.pow_nonneg; lia]).
      lia.
    - exfalso. destruct C as (qc & Hc & _).
      assert (JS.valueOf x = JS.Inf false) as I by (unfold JS.valueOf; now rewrite <- E).
      rewrite (lt_Inf_l _ _ _ _ I Hc) in L. discriminate. }
  destruct V as (q & Hq & H0). unfold JS.exactQ. rewrite Hq.
  repeat split; auto. now apply (lt_constant Hq C).
Qed.

Lemma quotient_signed (glucose ketones : JS.number) (unit : GlucoseUnit) (g k : Q) :
  JS.valueOf glucose = JS.Fin g -> JS.valueOf ketones = JS.Fin k ->
  0 < g -> 0 < k ->
  signed false (Prim2SF (convertGlucoseToMmol glucose unit / ketones)%float).
Proof.
  intros Hg Hk Pg Pk.
  destruct (positive_finite _ _ Hg Pg) as (mg & eg & Eg).
  destruct (positive_finite _ _ Hk Pk) as (mk & ek & Ek).
  rewrite div_spec, Ek.
  apply (SFdiv_signed false false).
  destruct unit; cbn [convertGlucoseToMmol].
  - rewrite div_spec, Eg.
    change (Prim2SF 18) with (S754_finite false 5066549580791808 (-48)).
    apply (SFdiv_signed false false). constructor.
  - rewrite Eg. constructor.
Qed.

(** A number above zero is a positive finite number or the positive
    infinity. *)
Lemma positive_number (x : JS.number) :
  JS.lt 0%float x = true ->
  signed false (Prim2SF x) /\ nonzero (Prim2SF x).
Proof.
  unfold JS.lt. rewrite ltb_spec. change (Prim2SF 0%float) with (S754_zero false).
  destruct (Prim2SF x) as [s|s| |s m e]; try discriminate;
    destruct s; try discriminate; split; constructor.
Qed.

(** The quotient of a number that is not negative by a number above zero is
    not negative, or it is [NaN]. *)
Lemma SFdiv_positive (x y : spec_float) :
  signed false x -> signed false y -> nonzero y ->
  signed false (SF64div x y) \/ SF64div x y = S754_nan.
Proof.
  intros Sx Sy Ny. destruct Ny as [sy my ey | sy].
  - inversion Sy; subst. left. now apply (SFdiv_signed false false).
  - inversion Sy; subst. destruct Sx; cbn; auto using signed.
Qed.

Lemma quotient_positive (glucose ketones : JS.number) (unit : GlucoseUnit) :
  JS.lt 0%float glucose = true -> JS.lt 0%float ketones = true ->
  signed false (Prim2SF (convertGlucoseToMmol glucose unit / ketones)%float)
  \/ Prim2SF (convertGlucoseToMmol glucose unit / ketones)%float = S754_nan.
Proof.
  intros Pg Pk.
  destruct (positive_number _ Pg) as [Sg _]. destruct (positive_number _ Pk) as [Sk Nk].
  rewrite div_spec. apply SFdiv_positive; [|exact Sk | exact Nk].
  destruct unit; cbn [convertGlucoseToMmol]; [|exact Sg].
  rewrite div_spec.
  change (Prim2SF 18) with (S754_finite false 5066549580791808 (-48)).
  now apply (SFdiv_signed false false).
Qed.

(** [toFixed] of a number that is not below [10^21], or of [NaN], is
    [toString] of it. *)
Lemma toFixed_large (x : JS.number) (f : nat) :
  signed false (Prim2SF x) \/ Prim2SF x = S754_nan ->
  JS.lt x 1e21%float = false ->
  JS.toFixed x f = JS.toString x.
Proof.
  intros S L. unfold JS.toFixed.
  destruct (JS.valueOf x) as [| s | q] eqn:V; try reflexivity.
  rewrite (lt_constant_bool V constant_1e21) in L. apply negb_false_iff in L.
  destruct S as [S | N]; [|unfold JS.valueOf in V; rewrite N in V; discriminate].
  assert (H0 : (0 <= q)%Q).
  { apply Qle_bool_iff in L. apply Qle_trans with (inject_Z (10 ^ 21)); [|exact L].
    unfold Qle. cbn. lia. }
  apply Qle_bool_iff in H0 as B0. rewrite B0, (Qabs_nonneg_eq _ H0), L.
  assert (A : PrimFloat.abs x = x).
  { apply Prim2SF_inj. rewrite abs_spec. now destruct S. }
  now rewrite A.
Qed.

(** C2, with the two ranges of the quotient.  For glucose and ketones above
    zero (finite or the positive infinity) and either unit, [calculateGKI] is
    the quotient [convertGlucoseToMmol(glucose, unit) / ketones] printed by
    [toFixed(1)].  When the quotient is below [10^21], the text is digits, a
    point and exactly one digit, the decimal it spells is the quotient rounded
    to one decimal, and [parseFloat] of the text is that decimal as a number.
    Otherwise (the quotient is [10^21] or more, infinite, or [NaN]) the text
    is [toString] of the quotient. *)
Theorem calculateGKI_one_decimal
  (glucose ketones : JS.number) (unit : GlucoseUnit) :
  JS.lt 0%float glucose = true -> JS.lt 0%float ketones = true ->
  let quotient := (convertGlucoseToMmol glucose unit / ketones)%float in
  calculateGKI glucose ketones unit = JS.toFixed quotient 1
  /\ if JS.lt quotient 1e21%float then
       oneFractionalDigit (calculateGKI glucose ketones unit) = true
       /\ (exists v : Q,
             JS.decimalValue (calculateGKI glucose ketones unit) = Some v
             /\ (v == oneDecimal quotient)%Q)
       /\ JS.parseFloat (calculateGKI glucose ketones unit) = roundedToOneDecimal quotient
     else calculateGKI glucose ketones unit = JS.toString quotient.
Proof.
  intros Pg Pk quotient. split; [reflexivity|].
  pose proof (quotient_positive glucose ketones unit Pg Pk) as S. fold quotient in S.
  destruct (JS.lt quotient 1e21%float) eqn:L.
  - destruct S as [S | N].
    + destruct (signed_below _ _ _ S constant_1e21 L) as (V & H0 & H21).
      destruct (toFixed_one_decimal _ _ V H0 H21) as (a & d & T & Da & Na & Dd & Vn).
      unfold calculateGKI, roundedToOneDecimal, oneDecimal. fold quotient. rewrite T.
      destruct (parseFloat_one_decimal a d Da Na Dd) as (P & M & O).
      rewrite P, O, M, Vn. repeat split.
      eexists. split; [reflexivity|].
      unfold JS.MV. rewrite Vn. reflexivity.
    + rewrite lt_NaN_l in L; [discriminate|]. unfold JS.valueOf. now rewrite N.
  - unfold calculateGKI. fold quotient. now apply toFixed_large.
Qed.

(** Glucose 90 mg/dL with ketones 3; glucose 5 mmol/L with infinite ketones,
    where the index is the text 0.0; and the quotient [1.5e21], which is
    printed as [toString] prints it. *)
Lemma calculateGKI_one_decimal_example :
  (oneFractionalDigit (calculateGKI 90%float 3%float mg_dL) = true
   /\ (exists v : Q,
         JS.decimalValue (calculateGKI 90%float 3%float mg_dL) = Some v
         /\ (v == oneDecimal (convertGlucoseToMmol 90%float mg_dL / 3)%float)%Q)
   /\ JS.parseFloat (calculateGKI 90%float 3%float mg_dL)
      = roundedToOneDecimal (convertGlucoseToMmol 90%float mg_dL / 3)%float)
  /\ (oneFractionalDigit (calculateGKI 5%float infinity mmol_L) = true
      /\ calculateGKI 5%float infinity mmol_L = "0.0")
  /\ (calculateGKI 1.5e21%float 1%float mmol_L = JS.toString 1.5e21%float
      /\ JS.toString 1.5e21%float = "1.5e+21").
Proof.
  split; [|split].
  - pose proof (proj2 (calculateGKI_one_decimal 90%float 3%float mg_dL eq_refl eq_refl)) as H.
    cbv zeta in H.
    replace (JS.lt (convertGlucoseToMmol 90 mg_dL / 3)%float 1e21%float) with true in H
      by (vm_compute; reflexivity).
    exact H.
  - pose proof (proj2 (calculateGKI_one_decimal 5%float infinity mmol_L eq_refl eq_refl)) as H.
    cbv zeta in H.
    replace (JS.lt (convertGlucoseToMmol 5 mmol_L / infinity)%float 1e21%float) with true in H
      by (vm_compute; reflexivity).
    split; [exact (proj1 H) | vm_compute; reflexivity].
  - pose proof (proj2 (calculateGKI_one_decimal 1.5e21%float 1%float mmol_L eq_refl eq_refl)) as H.
    cbv zeta in H.
    replace (JS.lt (convertGlucoseToMmol 1.5e21 mmol_L / 1)%float 1e21%float) with false in H
      by (vm_compute; reflexivity).
    split; [exact H | vm_compute; reflexivity].
Defined.

(** C2, as the claim states it, fails for a large quotient: [toFixed] prints a
    number of magnitude [10^21] or more as [toString] does.  Glucose [1e22]
    mmol/L and ketones 1 are positive, and the index is the text "1e+22",
    which has no fractional digit. *)
Lemma calculateGKI_large_quotient_has_no_fraction :
  JS.parseFloat "1e22" = 1e22%float /\ JS.parseFloat "1" = 1%float
  /\ JS.lt 0%float 1e22%float = true /\ JS.lt 0%float 1%float = true
  /\ calculateGKI 1e22%float 1%float mmol_L = "1e+22"
  /\ oneFractionalDigit (calculateGKI 1e22%float 1%float mmol_L) = false.
Proof. vm_compute. repeat split. Qed.


End Index.

(** ** The unit selector *)

Section Units.
Local Open Scope string_scope.

(** X1.  [assertGlucoseUnit] returns a unit exactly for the two texts
    "mg/dL" and "mmol/L", and the unit it returns is the one the text names;
    for any other text it throws the error "Invalid glucose unit: " followed
    by the text. *)
Theorem assertGlucoseUnit_accepts_the_two_units (value : string) :
  (forall unit : GlucoseUnit, assertGlucoseUnit value = inr unit <-> value = unitText unit)
  /\ ((forall unit : GlucoseUnit, value <> unitText unit) ->
      assertGlucoseUnit value = inl (Error ("Invalid glucose unit: " ++ value))).
Proof.
  unfold assertGlucoseUnit.
  destruct (String.eqb_spec value "mg/dL") as [-> | N1].
  - split.
    + intros [|]; cbn; split; congruence.
    + intros H. now destruct (H mg_dL).
  - destruct (String.eqb_spec value "mmol/L") as [-> | N2].
    + split.
      * intros [|]; cbn; split; congruence.
      * intros H. now destruct (H mmol_L).
    + split.
      * intros [|]; cbn; split; congruence.
      * reflexivity.
Qed.

End Units.

(** ** Runs of the store operations and of the handlers *)

Section Runs.
Local Open Scope string_scope.

Lemma exec_openDatabase {W : Type} (h : handler W) (w : W) :
  exec h App.openDatabase w =
    (match fst (h _ (IndexedDBOpen dbName 1) w) with
     | Threw e => Rejected e
     | OnError => Rejected (Error messages.error.failedOpeningDB)
     | OnSuccess db => Resolved db
     end,
     snd (h _ (IndexedDBOpen dbName 1) w),
     [Did (IndexedDBOpen dbName 1) (fst (h _ (IndexedDBOpen dbName 1) w))]).
Proof.
  unfold App.openDatabase, trigger. cbn [bind exec].
  now destruct (h _ (IndexedDBOpen dbName 1) w) as [[e| |db] w1].
Qed.

Lemma exec_addEntry {W : Type} (h : handler W) (entry : Entry.t) (w : W) :
  exec h (App.addEntry entry) w =
    let (o, w1) := h _ (IndexedDBOpen dbName 1) w in
    match o with
    | OnSuccess db =>
        let (r, w2) := h _ (StoreAdd db objectStoreName entry) w1 in
        (added r, w2, [Did (IndexedDBOpen dbName 1) o; Did (StoreAdd db objectStoreName entry) r])
    | Threw e => (Rejected e, w1, [Did (IndexedDBOpen dbName 1) o])
    | OnError => (Rejected (Error messages.error.failedOpeningDB), w1,
                  [Did (IndexedDBOpen dbName 1) o])
    end.
Proof.
  unfold App.addEntry, App.openDatabase, trigger. cbn [bind exec].
  destruct (h _ (IndexedDBOpen dbName 1) w) as [[e| |db] w1]; cbn [bind exec]; try reflexivity.
  destruct (h _ (StoreAdd db objectStoreName entry) w1) as [[e| |id] w2]; reflexivity.
Qed.

Lemma exec_deleteEntry {W : Type} (h : handler W) (id : JS.number) (w : W) :
  exec h (App.deleteEntry (Some id)) w =
    let (o, w1) := h _ (IndexedDBOpen dbName 1) w in
    match o with
    | OnSuccess db =>
        let (r, w2) := h _ (StoreDelete db objectStoreName id) w1 in
        (deleted r, w2, [Did (IndexedDBOpen dbName 1) o; Did (StoreDelete db objectStoreName id) r])
    | Threw e => (Rejected e, w1, [Did (IndexedDBOpen dbName 1) o])
    | OnError => (Rejected (Error messages.error.failedOpeningDB), w1,
                  [Did (IndexedDBOpen dbName 1) o])
    end.
Proof.
  unfold App.deleteEntry, App.openDatabase, trigger. cbn [bind exec].
  destruct (h _ (IndexedDBOpen dbName 1) w) as [[e| |db] w1]; cbn [bind exec]; try reflexivity.
  destruct (h _ (StoreDelete db objectStoreName id) w1) as [[e| |u] w2]; reflexivity.
Qed.

Lemma exec_initDB {W : Type} (h : handler W) (st : App.state) (w : W) :
  exec h (App.initDB st) w =
    let (o, w1) := h _ (IndexedDBOpen dbName 1) w in
    let failed (error : thrown) (w' : W) (t : list action) :=
      let message := messages.error.errorInitializingDatabase (App.reasonOf error) in
      (App.setLoading false (App.setDbError (Some message) st),
       snd (h _ (ConsoleError message None) w'),
       (t ++ [Did (ConsoleError message None) tt])%list) in
    match o with
    | OnSuccess db =>
        let (r, w2) := h _ (StoreGetAll db objectStoreName) w1 in
        let t := [Did (IndexedDBOpen dbName 1) o; Did (StoreGetAll db objectStoreName) r] in
        match retrieved r with
        | Resolved stored =>
            (App.setLoading false
               (App.setEntries (JS.sort App.byTimestampDescending stored) st), w2, t)
        | Rejected error => failed error w2 t
        end
    | Threw e => failed e w1 [Did (IndexedDBOpen dbName 1) o]
    | OnError => failed (Error messages.error.failedOpeningDB) w1
                   [Did (IndexedDBOpen dbName 1) o]
    end.
Proof.
  unfold App.initDB, App.openDatabase, App.getAllEntries, trigger. cbn [bind exec].
  destruct (h _ (IndexedDBOpen dbName 1) w) as [[e| |db] w1]; cbn [bind exec].
  - destruct (h unit _ w1) as [[] w2]; reflexivity.
  - destruct (h unit _ w1) as [[] w2]; reflexivity.
  - destruct (h _ (StoreGetAll db objectStoreName) w1) as [[e| |stored] w2];
      cbn [bind exec retrieved]; try reflexivity;
      destruct (h unit _ w2) as [[] w3]; reflexivity.
Qed.

Lemma result_load {W : Type} (h : handler W) (w : W) :
  result h load w =
    match fst (h _ (IndexedDBOpen dbName 1) w) with
    | OnSuccess db =>
        retrieved (fst (h _ (StoreGetAll db objectStoreName) (snd (h _ (IndexedDBOpen dbName 1) w))))
    | Threw e => Rejected e
    | OnError => Rejected (Error messages.error.failedOpeningDB)
    end.
Proof.
  unfold result, load, App.openDatabase, App.getAllEntries, trigger. cbn [bind exec].
  destruct (h _ (IndexedDBOpen dbName 1) w) as [[e| |db] w1]; cbn [bind exec fst snd];
    try reflexivity.
  destruct (h _ (StoreGetAll db objectStoreName) w1) as [[e| |stored] w2]; reflexivity.
Qed.

(** X2.  The first render is the loading screen, and after [initDB] the
    loading screen is never shown again.  When opening the database and
    reading the entries succeed, the state is the first state with the stored
    entries sorted and the tracker is shown with empty fields and the unit
    mg/dL; when either fails, no entry is displayed and the screen is the
    database error with "Error initializing database: " and the reason.
    [initDB] opens the database once, reads at most once, writes nothing and
    opens no dialog. *)
Theorem startup_shows_tracker_or_error
  (W : Type) (h : handler W) (w : W) (online : bool) :
  let st := result h (App.initDB App.initial) w in
  let t := trace h (App.initDB App.initial) w in
  App.render online App.initial = App.LoadingScreen
  /\ App.render online st <> App.LoadingScreen
  /\ match result h load w with
     | Resolved stored =>
         st = App.mkState "" "" mg_dL (JS.sort App.byTimestampDescending stored) false None
         /\ exists measurements status,
              App.render online st = App.TrackerScreen "" "" mg_dL measurements status
     | Rejected error =>
         App.entries st = []
         /\ App.render online st
            = App.DatabaseErrorScreen
                ("Error initializing database: " ++ App.reasonOf error)
     end
  /\ count isOpen t = 1%nat /\ (count isGetAll t <= 1)%nat
  /\ count isAdd t = 0%nat /\ count isDelete t = 0%nat /\ count isDialog t = 0%nat.
Proof.
  intros st t. rewrite result_load. unfold st, t, result, trace. rewrite exec_initDB.
  destruct (h _ (IndexedDBOpen dbName 1) w) as [[e| |db] w1]; cbn [fst snd].
  - repeat split; try discriminate; reflexivity || (cbn; lia).
  - repeat split; try discriminate; reflexivity || (cbn; lia).
  - destruct (h _ (StoreGetAll db objectStoreName) w1) as [[e| |stored] w2];
      cbn [retrieved fst snd].
    + repeat split; try discriminate; reflexivity || (cbn; lia).
    + repeat split; try discriminate; reflexivity || (cbn; lia).
    + repeat split; try discriminate; try reflexivity; try (cbn; lia).
      cbn. eauto.
Qed.

(** *** What a submission does *)

Lemma exec_handleSubmit {W : Type} (h : handler W) (st : App.state) (w : W) :
  exec h (App.handleSubmit st) w =
    if App.rejects st then
      (st, snd (h _ (Alert messages.error.invalidInput) (snd (h _ PreventDefault w))),
       [Did PreventDefault tt; Did (Alert messages.error.invalidInput) tt])
    else
      let (entry, w1) := submitted h st w in
      let '(r, w2, t) := exec h (App.addEntry entry) w1 in
      let start := [Did PreventDefault tt; Did DateGetTime (Entry.timestamp entry)] in
      match r with
      | Resolved id =>
          (App.setKetones "" (App.setGlucose ""
             (App.setEntries (Entry.withId entry id :: App.entries st) st)),
           w2, (start ++ t)%list)
      | Rejected error =>
          let w3 := snd (h _ (ConsoleError "Error adding entry:" (Some error)) w2) in
          let message := messages.error.errorSavingEntryDetailed (App.reasonOf error) in
          (st, snd (h _ (Alert message) w3),
           (start ++ t ++ [Did (ConsoleError "Error adding entry:" (Some error)) tt;
                           Did (Alert message) tt])%list)
      end.
Proof.
  destruct (App.rejects st) eqn:R.
  - now apply exec_handleSubmit_rejected.
  - now apply exec_handleSubmit_accepted.
Qed.

Ltac tally :=
  cbn; repeat match goal with |- _ /\ _ => split end; intros;
  repeat match goal with
         | H : _ \/ _ |- _ => destruct H as [H | H]
         | H : False |- _ => destruct H
         end;
  try lia; try congruence; try (split; reflexivity); try (split; congruence).

(** X3.  Whatever the environment answers, [handleSubmit] opens the database
    at most once, sends at most one entry to the store, deletes and reads
    nothing, and opens at most one dialog; a rejected submission does not open
    the database.  An entry it sends is the one built from the fields and has
    no [id]: the key is left to the store.  The history changes only when an
    entry was sent and no dialog was opened. *)
Theorem handleSubmit_sends_at_most_one_entry
  (W : Type) (h : handler W) (w : W) (st : App.state) :
  let t := trace h (App.handleSubmit st) w in
  (count isOpen t <= 1)%nat /\ (count isAdd t <= 1)%nat
  /\ count isDelete t = 0%nat /\ count isGetAll t = 0%nat
  /\ (count isDialog t <= 1)%nat
  /\ (App.rejects st = true -> count isOpen t = 0%nat)
  /\ (forall entry : Entry.t, In (Some entry) (map entryAdded t) ->
        entry = fst (submitted h st w) /\ Entry.id entry = None)
  /\ (App.entries (result h (App.handleSubmit st) w) <> App.entries st ->
        count isAdd t = 1%nat /\ count isDialog t = 0%nat).
Proof.
  intros t. unfold t, trace, result. rewrite exec_handleSubmit.
  destruct (App.rejects st) eqn:R.
  - tally.
  - destruct (submitted h st w) as [entry w1] eqn:S. rewrite exec_addEntry.
    assert (I : Entry.id entry = None)
      by (unfold submitted in S; injection S as <- _; reflexivity).
    destruct (h _ (IndexedDBOpen dbName 1) w1) as [[e| |db] w2]; [tally | tally |].
    destruct (h _ (StoreAdd db objectStoreName entry) w2) as [r w3].
    destruct (added r) as [id | error]; tally.
Qed.

(** *** What a deletion does *)

(** X4.  [handleDelete] without an id does nothing.  With an id it asks for
    confirmation first: when the user declines, the confirmation is its one
    action and the state is unchanged.  It opens the database at most once,
    requests at most one deletion, only of the id it was given, and adds and
    reads nothing; the history changes only after a deletion was requested,
    with the confirmation as the only dialog. *)
Theorem handleDelete_asks_first
  (W : Type) (h : handler W) (w : W) (st : App.state) :
  exec h (App.handleDelete None st) w = (st, w, [])
  /\ forall id : JS.number,
       let t := trace h (App.handleDelete (Some id) st) w in
       (fst (h _ (Confirm confirmation) w) = false ->
          exec h (App.handleDelete (Some id) st) w
          = (st, snd (h _ (Confirm confirmation) w), [Did (Confirm confirmation) false]))
       /\ (count isOpen t <= 1)%nat /\ (count isDelete t <= 1)%nat
       /\ count isAdd t = 0%nat /\ count isGetAll t = 0%nat
       /\ (forall key : JS.number, In (Some key) (map keyDeleted t) -> key = id)
       /\ (App.entries (result h (App.handleDelete (Some id) st) w) <> App.entries st ->
             count isDelete t = 1%nat /\ count isDialog t = 1%nat).
Proof.
  split; [reflexivity|]. intros id t. unfold t, trace, result.
  rewrite exec_handleDelete.
  destruct (h bool (Confirm confirmation) w) as [[|] w1]; cbn [fst snd]; [|tally].
  rewrite exec_deleteEntry.
  destruct (h _ (IndexedDBOpen dbName 1) w1) as [[e| |db] w2]; [tally | tally |].
  destruct (h _ (StoreDelete db objectStoreName id) w2) as [[e| |u] w3]; tally.
Qed.

(** *** The screen while the user acts *)

Lemma act_keeps_phase {W : Type} (h : handler W) (a : App.userAction) (st : App.state) (w : W) :
  App.loading (result h (App.act a st) w) = App.loading st
  /\ App.dbError (result h (App.act a st) w) = App.dbError st.
Proof.
  unfold result. destruct a as [typed | typed | unit | | [id|]]; cbn [App.act exec fst].
  - split; reflexivity.
  - split; reflexivity.
  - unfold App.changeUnit. destruct (assertGlucoseUnit (unitText unit)); split; reflexivity.
  - rewrite exec_handleSubmit. destruct (App.rejects st); [split; reflexivity|].
    destruct (submitted h st w) as [entry w1].
    destruct (exec h (App.addEntry entry) w1) as [[[id | error] w2] t]; split; reflexivity.
  - rewrite exec_handleDelete.
    destruct (h bool (Confirm confirmation) w) as [[|] w1]; [|split; reflexivity].
    destruct (exec h (App.deleteEntry (Some id)) w1) as [[[u | error] w2] t]; split; reflexivity.
  - split; reflexivity.
Qed.

(** X5.  No sequence of user actions (typing in a field, selecting a unit,
    submitting, deleting) changes [loading] or [dbError].  So the screen stays
    in its phase whatever the store answers: when the tracker is shown it is
    still shown afterwards, with the same status line, and a failure of the
    store after startup never brings the database error screen. *)
Theorem acts_keep_the_tracker_on_screen
  (W : Type) (h : handler W) (w : W) (actions : list App.userAction) (st : App.state) :
  let st' := result h (App.acts actions st) w in
  App.loading st' = App.loading st
  /\ App.dbError st' = App.dbError st
  /\ forall online : bool,
       match App.render online st with
       | App.TrackerScreen _ _ _ _ status =>
           exists glucose ketones unit measurements,
             App.render online st' = App.TrackerScreen glucose ketones unit measurements status
       | screen => App.render online st' = screen
       end.
Proof.
  intros st'.
  assert (P : App.loading st' = App.loading st /\ App.dbError st' = App.dbError st).
  { unfold st'. clear st'. revert st w.
    induction actions as [|a rest IH]; intros st w; [split; reflexivity|].
    unfold result. cbn [App.acts]. rewrite exec_bind.
    destruct (act_keeps_phase h a st w) as [L E]. unfold result in L, E.
    destruct (exec h (App.act a st) w) as [[st1 w1] t1]. cbn [fst] in L, E.
    destruct (IH st1 w1) as [L' E']. unfold result in L', E'.
    destruct (exec h (App.acts rest st1) w1) as [[st2 w2] t2]. cbn [fst] in *.
    split; congruence. }
  destruct P as [L E]. split; [exact L|]. split; [exact E|].
  intros online. unfold App.render. rewrite L, E.
  destruct (App.loading st); [reflexivity|].
  destruct (App.dbError st) as [[|c m]|]; try reflexivity; repeat eexists.
Qed.

(** *** A database that cannot be opened *)

(** X6.  When the database cannot be opened, [addEntry], [deleteEntry] and
    the loading of the entries all reject with the error of the opening (the
    exception thrown, or "Failed to open database" for the error event), and
    the attempt to open is their only action: no request reaches the store. *)
Theorem open_failure_stops_every_operation
  (W : Type) (h : handler W) (w : W) (entry : Entry.t) (id : JS.number) :
  let o := h _ (IndexedDBOpen dbName 1) w in
  opened (fst o) = false ->
  exec h (App.addEntry entry) w
    = (Rejected (openingError (fst o)), snd o, [Did (IndexedDBOpen dbName 1) (fst o)])
  /\ exec h (App.deleteEntry (Some id)) w
    = (Rejected (openingError (fst o)), snd o, [Did (IndexedDBOpen dbName 1) (fst o)])
  /\ exec h load w
    = (Rejected (openingError (fst o)), snd o, [Did (IndexedDBOpen dbName 1) (fst o)]).
Proof.
  intros o. unfold o. rewrite exec_addEntry, exec_deleteEntry.
  unfold load, App.openDatabase, trigger. cbn [bind exec].
  destruct (h _ (IndexedDBOpen dbName 1) w) as [[e| |db] w1]; cbn; intros H;
    try discriminate; repeat split.
Qed.

(** Storage that cannot be opened. *)
Lemma open_failure_stops_every_operation_unavailable :
  exec (Env.scripted Env.unavailable) (App.addEntry Env.older) tt
    = (Rejected (Error "Failed to open database"), tt, [Did (IndexedDBOpen dbName 1) OnError])
  /\ exec (Env.scripted Env.unavailable) (App.deleteEntry (Some 1%float)) tt
    = (Rejected (Error "Failed to open database"), tt, [Did (IndexedDBOpen dbName 1) OnError])
  /\ exec (Env.scripted Env.unavailable) load tt
    = (Rejected (Error "Failed to open database"), tt, [Did (IndexedDBOpen dbName 1) OnError]).
Proof.
  exact (open_failure_stops_every_operation unit (Env.scripted Env.unavailable) tt
           Env.older 1%float eq_refl).
Defined.

(** *** The form after a submission *)

(** X7.  A submission that changes the state has saved an entry: [addEntry]
    resolved with a key, the history is the entry built from the fields, with
    that key, in front of the former history, both fields are empty, the unit,
    [loading] and [dbError] are kept, and submitting again without typing is
    rejected with the validation message and no access to the store. *)
Theorem handleSubmit_saved_clears_the_form
  (W : Type) (h : handler W) (w w' : W) (st : App.state) :
  let st' := result h (App.handleSubmit st) w in
  st' <> st ->
  exists id : JS.number,
    result h (App.addEntry (fst (submitted h st w))) (snd (submitted h st w)) = Resolved id
    /\ App.entries st' = Entry.withId (fst (submitted h st w)) id :: App.entries st
    /\ App.glucose st' = "" /\ App.ketones st' = ""
    /\ App.glucoseUnit st' = App.glucoseUnit st
    /\ App.loading st' = App.loading st /\ App.dbError st' = App.dbError st
    /\ exec h (App.handleSubmit st') w'
       = (st', snd (h _ (Alert messages.error.invalidInput) (snd (h _ PreventDefault w'))),
          [Did PreventDefault tt; Did (Alert messages.error.invalidInput) tt]).
Proof.
  intros st' N.
  assert (E : st' = st \/ exists id,
                result h (App.addEntry (fst (submitted h st w))) (snd (submitted h st w))
                = Resolved id
                /\ st' = App.setKetones "" (App.setGlucose ""
                           (App.setEntries
                              (Entry.withId (fst (submitted h st w)) id :: App.entries st) st))).
  { unfold st', result. rewrite exec_handleSubmit.
    destruct (App.rejects st); [now left|].
    destruct (submitted h st w) as [entry w1]. cbn [fst snd].
    destruct (exec h (App.addEntry entry) w1) as [[[id | error] w2] t]; [|now left].
    right. now exists id. }
  destruct E as [E | (id & A & E)]; [contradiction|].
  exists id. split; [exact A|]. rewrite E. repeat split. now rewrite exec_handleSubmit.
Qed.

(** Glucose 90 mg/dL with ketones 1.5 in an empty store. *)
Lemma handleSubmit_saved_clears_the_form_example :
  let st := Env.form "90" "1.5" mg_dL [] in
  let st' := result Env.run (App.handleSubmit st) Env.fresh in
  App.entries st' = [Entry.mk (Some 1%float) 90%float mg_dL 1.5%float "3.3" 1000%float]
  /\ App.glucose st' = "" /\ App.ketones st' = ""
  /\ exec Env.run (App.handleSubmit st') Env.fresh
     = (st', Env.fresh,
        [Did PreventDefault tt; Did (Alert messages.error.invalidInput) tt]).
Proof.
  intros st st'.
  destruct (handleSubmit_saved_clears_the_form Env.browser Env.run Env.fresh Env.fresh st)
    as (id & A & E & G & K & _ & _ & _ & R).
  - vm_compute. discriminate.
  - fold st' in E, G, K, R. split; [|split; [exact G | split; [exact K | exact R]]].
    rewrite E. vm_compute in A. injection A as <-. vm_compute. reflexivity.
Defined.

End Runs.

(** ** Submissions during a session *)

Section Sessions.
Local Open Scope string_scope.

Lemma numberInputValue_inputValue (typed : string) : inputValue (numberInputValue typed).
Proof.
  unfold inputValue, numberInputValue.
  destruct (validFloatingPointNumber typed) eqn:V; auto.
Qed.

Lemma act_keeps_fields {W : Type} (h : handler W) (a : App.userAction) (st : App.state) (w : W) :
  inputValue (App.glucose st) /\ inputValue (App.ketones st) ->
  inputValue (App.glucose (result h (App.act a st) w))
  /\ inputValue (App.ketones (result h (App.act a st) w)).
Proof.
  intros [G K]. assert (E : inputValue "") by now left.
  unfold result. destruct a as [typed | typed | unit | | [id|]]; cbn [App.act exec fst].
  - split; [apply numberInputValue_inputValue | exact K].
  - split; [exact G | apply numberInputValue_inputValue].
  - unfold App.changeUnit. destruct (assertGlucoseUnit (unitText unit)); split; assumption.
  - rewrite exec_handleSubmit. destruct (App.rejects st); [split; assumption|].
    destruct (submitted h st w) as [entry w1].
    destruct (exec h (App.addEntry entry) w1) as [[[id | error] w2] t]; split; assumption.
  - rewrite exec_handleDelete.
    destruct (h bool (Confirm confirmation) w) as [[|] w1]; [|split; assumption].
    destruct (exec h (App.deleteEntry (Some id)) w1) as [[[u | error] w2] t];
      split; assumption.
  - split; assumption.
Qed.

Lemma acts_keep_fields {W : Type} (h : handler W) (actions : list App.userAction)
    (st : App.state) (w : W) :
  inputValue (App.glucose st) /\ inputValue (App.ketones st) ->
  inputValue (App.glucose (result h (App.acts actions st) w))
  /\ inputValue (App.ketones (result h (App.acts actions st) w)).
Proof.
  revert st w. induction actions as [|a rest IH]; intros st w F; [exact F|].
  unfold result. cbn [App.acts]. rewrite exec_bind.
  pose proof (act_keeps_fields h a st w F) as F1. unfold result in F1.
  destruct (exec h (App.act a st) w) as [[st1 w1] t1]. cbn [fst] in F1.
  specialize (IH st1 w1 F1). unfold result in IH.
  destruct (exec h (App.acts rest st1) w1) as [[st2 w2] t2]. exact IH.
Qed.

(** The fields of the form hold values a number input reports, at every
    state of a session: text that is not numeric is never submitted. *)
Lemma session_fields {W : Type} (h : handler W) (actions : list App.userAction) (w : W) :
  inputValue (App.glucose (result h (session actions) w))
  /\ inputValue (App.ketones (result h (session actions) w)).
Proof.
  unfold result, session. rewrite exec_bind.
  assert (F : inputValue (App.glucose (result h (App.initDB App.initial) w))
              /\ inputValue (App.ketones (result h (App.initDB App.initial) w))).
  { unfold result. rewrite exec_initDB.
    destruct (h _ (IndexedDBOpen dbName 1) w) as [[e| |db] w1]; cbn;
      try (split; now left).
    destruct (h _ (StoreGetAll db objectStoreName) w1) as [[e| |stored] w2]; cbn;
      split; now left. }
  unfold result in F. destruct (exec h (App.initDB App.initial) w) as [[st0 w0] t0].
  cbn [fst] in F. pose proof (acts_keep_fields h actions st0 w0 F) as F1.
  unfold result in F1. destruct (exec h (App.acts actions st0) w0) as [[st1 w1] t1].
  exact F1.
Qed.

(** C4.  At every state of a session, a submission whose glucose field does
    not hold a number (the input is missing or not numeric), or whose ketone
    field does not hold a number or holds one that parses to zero, is
    rejected: the handler shows the one validation message and does nothing
    else, so nothing is computed, the store is not touched, and the state,
    its entries among it, is the one before. *)
Theorem handleSubmit_rejects_invalid_input
  (W : Type) (h : handler W) (w : W) (actions : list App.userAction)
  (W' : Type) (h' : handler W') (w' : W') :
  let st := result h (session actions) w in
  validFloatingPointNumber (App.glucose st) = false
  \/ validFloatingPointNumber (App.ketones st) = false
  \/ JS.strictEq (JS.parseFloat (App.ketones st)) 0%float = true ->
  result h' (App.handleSubmit st) w' = st
  /\ trace h' (App.handleSubmit st) w' =
       [Did PreventDefault tt; Did (Alert messages.error.invalidInput) tt].
Proof.
  intros st H. destruct (session_fields h actions w) as [G K]. fold st in G, K.
  assert (R : App.rejects st = true).
  { unfold App.rejects. destruct H as [H | [H | H]].
    - destruct G as [-> | G]; [reflexivity | congruence].
    - destruct K as [-> | K]; [|congruence]. cbn [App.falsy]. now rewrite orb_true_r.
    - rewrite H. now rewrite orb_true_r. }
  unfold result, trace. now rewrite (exec_handleSubmit_rejected h' st w' R).
Qed.

(** Glucose "abc", no glucose, ketones "ketones", no ketones, and ketones 0. *)
Lemma handleSubmit_rejects_invalid_input_examples :
  let rejected (actions : list App.userAction) :=
    let st := result Env.run (session actions) Env.fresh in
    result Env.run (App.handleSubmit st) (world Env.run (session actions) Env.fresh) = st
    /\ trace Env.run (App.handleSubmit st) (world Env.run (session actions) Env.fresh) =
         [Did PreventDefault tt; Did (Alert messages.error.invalidInput) tt] in
  rejected [App.TypeGlucose "abc"; App.TypeKetones "1.5"]
  /\ rejected [App.TypeKetones "1.5"]
  /\ rejected [App.TypeGlucose "100"; App.TypeKetones "ketones"]
  /\ rejected [App.TypeGlucose "100"]
  /\ rejected [App.TypeGlucose "100"; App.TypeKetones "0"].
Proof.
  intros rejected. unfold rejected. split; [|split; [|split; [|split]]].
  - apply (handleSubmit_rejects_invalid_input Env.browser Env.run Env.fresh
             [App.TypeGlucose "abc"; App.TypeKetones "1.5"] Env.browser Env.run).
    left. vm_compute. reflexivity.
  - apply (handleSubmit_rejects_invalid_input Env.browser Env.run Env.fresh
             [App.TypeKetones "1.5"] Env.browser Env.run).
    left. vm_compute. reflexivity.
  - apply (handleSubmit_rejects_invalid_input Env.browser Env.run Env.fresh
             [App.TypeGlucose "100"; App.TypeKetones "ketones"] Env.browser Env.run).
    right. left. vm_compute. reflexivity.
  - apply (handleSubmit_rejects_invalid_input Env.browser Env.run Env.fresh
             [App.TypeGlucose "100"] Env.browser Env.run).
    right. left. vm_compute. reflexivity.
  - apply (handleSubmit_rejects_invalid_input Env.browser Env.run Env.fresh
             [App.TypeGlucose "100"; App.TypeKetones "0"] Env.browser Env.run).
    right. right. vm_compute. reflexivity.
Defined.

End Sessions.

(** ** The history and the records of the store *)

Section Store.
Local Open Scope string_scope.

Lemma filter_Permutation {A : Type} (f : A -> bool) (l l' : list A) :
  Permutation l l' -> Permutation (filter f l) (filter f l').
Proof.
  induction 1 as [|x l l' P IH|x y l|l l' l'' P1 IH1 P2 IH2]; cbn.
  - constructor.
  - destruct (f x); [now constructor | assumption].
  - destruct (f x), (f y); try reflexivity. constructor.
  - now transitivity (filter f l').
Qed.

Lemma run_storageAvailable (X : Type) (e : event X) (b : Env.browser) :
  Env.storageAvailable (snd (Env.run X e b)) = Env.storageAvailable b.
Proof.
  destruct e; cbn; try reflexivity.
  - now destruct (Env.storageAvailable b) eqn:A.
  - destruct (Entry.id entry) as [key|]; [|reflexivity].
    now destruct (forallb (App.idDiffers key) (Env.records b)).
Qed.

Lemma world_storageAvailable {A : Type} (p : prog A) (b : Env.browser) :
  Env.storageAvailable (world Env.run p b) = Env.storageAvailable b.
Proof.
  unfold world. revert b. induction p as [a | X e k IH]; intros b; [reflexivity|].
  cbn [exec]. pose proof (run_storageAvailable X e b) as S.
  destruct (Env.run X e b) as [x b1]. cbn [snd] in S.
  specialize (IH x b1). destruct (exec Env.run (k x) b1) as [[a b2] t].
  cbn [fst snd] in *. congruence.
Qed.

Lemma act_inSync (a : App.userAction) (st : App.state) (b : Env.browser) :
  inSync st b ->
  inSync (result Env.run (App.act a st) b) (world Env.run (App.act a st) b).
Proof.
  unfold inSync, result, world. intros P.
  destruct a as [typed | typed | unit | | [id|]]; cbn [App.act exec fst snd].
  - exact P.
  - exact P.
  - unfold App.changeUnit. now destruct (assertGlucoseUnit (unitText unit)).
  - rewrite exec_handleSubmit. destruct (App.rejects st); [exact P|].
    unfold submitted. cbn [Env.run fst snd]. rewrite exec_addEntry.
    cbn [Env.run Env.tick Env.storageAvailable].
    destruct (Env.storageAvailable b); [|exact P].
    cbn. etransitivity; [apply perm_skip; exact P | apply Permutation_cons_append].
  - rewrite exec_handleDelete. cbn [Env.run].
    destruct (Env.userConfirms b); [|exact P].
    rewrite exec_deleteEntry. cbn [Env.run].
    destruct (Env.storageAvailable b); [|exact P].
    cbn. now apply filter_Permutation.
  - exact P.
Qed.

Lemma acts_inSync (actions : list App.userAction) (st : App.state) (b : Env.browser) :
  inSync st b ->
  inSync (result Env.run (App.acts actions st) b) (world Env.run (App.acts actions st) b).
Proof.
  revert st b. induction actions as [|a rest IH]; intros st b P; [exact P|].
  unfold result, world. cbn [App.acts]. rewrite exec_bind.
  pose proof (act_inSync a st b P) as P1. unfold result, world in P1.
  destruct (exec Env.run (App.act a st) b) as [[st1 b1] t1]. cbn [fst snd] in P1.
  specialize (IH st1 b1 P1). unfold result, world in IH.
  destruct (exec Env.run (App.acts rest st1) b1) as [[st2 b2] t2]. exact IH.
Qed.

Lemma exec_initDB_available (st : App.state) (b : Env.browser) :
  Env.storageAvailable b = true ->
  exec Env.run (App.initDB st) b
  = (App.setLoading false
       (App.setEntries (JS.sort App.byTimestampDescending (Env.records b)) st), b,
     [Did (IndexedDBOpen dbName 1) (OnSuccess (Connection dbName 1));
      Did (StoreGetAll (Connection dbName 1) objectStoreName) (OnSuccess (Env.records b))]).
Proof.
  intros A. rewrite exec_initDB. cbn [Env.run]. rewrite A. reflexivity.
Qed.

(** A submission that passes the test, in a store that is available. *)
Lemma exec_handleSubmit_stored (st : App.state) (b : Env.browser) :
  App.rejects st = false -> Env.storageAvailable b = true ->
  let key := Env.ofZ (Env.keyGenerator b) in
  let entry := Entry.withId (App.newEntry st (Env.ofZ (Env.clock b))) key in
  result Env.run (App.handleSubmit st) b
  = App.setKetones "" (App.setGlucose "" (App.setEntries (entry :: App.entries st) st))
  /\ world Env.run (App.handleSubmit st) b
     = Env.stored (Env.tick b) (Env.records b ++ [entry]) (Env.keyGenerator b + 1).
Proof.
  intros R A key entry. unfold result, world. rewrite exec_handleSubmit, R.
  unfold submitted. cbn [Env.run fst snd]. rewrite exec_addEntry.
  cbn [Env.run Env.tick Env.storageAvailable]. rewrite A. cbn. split; reflexivity.
Qed.

(** X8.  In a browser whose object store assigns the keys, when the user's
    actions are handled one after the other, each handler completing before
    the next action starts (the runs of [App.acts]), a history that holds the
    records of the store, in any order, still does after any sequence of
    actions, whether the store is available or not and whatever the user
    answers; when the store is available, loading the page again then shows
    the same entries, up to their order, on the tracker.  The condition is
    needed.  The handlers are asynchronous and compute the new history from
    the entries of the render they started in: when a second submission
    starts from the same render as a first one and its requests are served
    after the first's, the store holds two new records and the history one
    new entry, so they differ until the page is loaded again. *)
Theorem history_follows_the_store
  (actions : list App.userAction) (st : App.state) (b : Env.browser) :
  inSync st b ->
  let st' := result Env.run (App.acts actions st) b in
  let b' := world Env.run (App.acts actions st) b in
  (inSync st' b'
   /\ (Env.storageAvailable b = true ->
       let reloaded := result Env.run (App.initDB App.initial) b' in
       Permutation (App.entries reloaded) (App.entries st')
       /\ App.loading reloaded = false /\ App.dbError reloaded = None))
  /\ (App.rejects st = false -> Env.storageAvailable b = true ->
      let b1 := world Env.run (App.handleSubmit st) b in
      let st2 := result Env.run (App.handleSubmit st) b1 in
      let b2 := world Env.run (App.handleSubmit st) b1 in
      List.length (App.entries st2) = S (List.length (App.entries st))
      /\ List.length (Env.records b2) = S (S (List.length (Env.records b)))
      /\ ~ inSync st2 b2).
Proof.
  intros P st' b'. split.
  - pose proof (acts_inSync actions st b P) as P'. fold st' b' in P'.
    split; [exact P'|]. intros A reloaded.
    assert (A' : Env.storageAvailable b' = true)
      by (unfold b'; now rewrite world_storageAvailable).
    unfold reloaded, result. rewrite (exec_initDB_available _ _ A'). cbn.
    repeat split. etransitivity; [apply sort_Permutation|]. symmetry. exact P'.
  - intros R A b1 st2 b2.
    destruct (exec_handleSubmit_stored st b R A) as [_ W1]. fold b1 in W1.
    assert (A1 : Env.storageAvailable b1 = true)
      by (unfold b1; now rewrite world_storageAvailable).
    destruct (exec_handleSubmit_stored st b1 R A1) as [S2 W2]. fold st2 in S2. fold b2 in W2.
    assert (L2 : List.length (App.entries st2) = S (List.length (App.entries st)))
      by (rewrite S2; reflexivity).
    assert (L3 : List.length (Env.records b2) = S (S (List.length (Env.records b)))).
    { rewrite W2. cbn [Env.records Env.stored]. rewrite W1. cbn [Env.records Env.stored].
      rewrite !length_app. cbn [List.length]. lia. }
    split; [exact L2|]. split; [exact L3|].
    intros Q. apply Permutation_length in Q. apply Permutation_length in P. lia.
Qed.

(** Two fields typed, a submission and a deletion, in a store of two records;
    and two submissions of glucose 90 mg/dL with ketones 1.5 from the same
    render, in an empty store. *)
Lemma history_follows_the_store_example :
  let actions := [App.TypeGlucose "90"; App.TypeKetones "1.5"; App.Submit;
                  App.ClickDelete (Some 1%float)] in
  let st := Env.form "" "" mg_dL [Env.newer; Env.older] in
  let b := Env.stored Env.fresh [Env.older; Env.newer] 3 in
  let st' := result Env.run (App.acts actions st) b in
  let b' := world Env.run (App.acts actions st) b in
  let filled := Env.form "90" "1.5" mg_dL [] in
  let b1 := world Env.run (App.handleSubmit filled) Env.fresh in
  (inSync st b
   /\ inSync st' b'
   /\ Permutation (App.entries (result Env.run (App.initDB App.initial) b')) (App.entries st'))
  /\ (List.length (App.entries (result Env.run (App.handleSubmit filled) b1)) = 1%nat
      /\ List.length (Env.records (world Env.run (App.handleSubmit filled) b1)) = 2%nat).
Proof.
  intros actions st b st' b' filled b1.
  assert (P : inSync st b) by apply perm_swap.
  assert (P0 : inSync filled Env.fresh) by constructor.
  split; [split; [exact P | split]|].
  - exact (proj1 (proj1 (history_follows_the_store actions st b P))).
  - exact (proj1 (proj2 (proj1 (history_follows_the_store actions st b P)) eq_refl)).
  - destruct (proj2 (history_follows_the_store [] filled Env.fresh P0)
                ltac:(vm_compute; reflexivity) eq_refl) as (L1 & L2 & _).
    split; [exact L1 | exact L2].
Defined.

End Store.

(** ** The order of the zones *)

Section Zones.
Local Open Scope Q_scope.

Lemma getGKIZone_value (gki : JS.number) :
  zone (getGKIZone gki) =
    match JS.valueOf gki with
    | JS.NaN => none
    | JS.Inf negative => if negative then deep else none
    | JS.Fin q => banded 1 3 6 9 q
    end.
Proof.
  destruct (JS.valueOf gki) as [|s|q] eqn:H.
  - unfold getGKIZone. rewrite !(lt_NaN_l _ _ H), !andb_false_r. reflexivity.
  - unfold getGKIZone.
    destruct constant_1 as (c1 & H1 & _). destruct constant_3 as (c3 & H3 & _).
    destruct constant_6 as (c6 & H6 & _). destruct constant_9 as (c9 & H9 & _).
    rewrite (lt_Inf_l _ _ _ _ H H1), (lt_Inf_l _ _ _ _ H H3),
      (lt_Inf_l _ _ _ _ H H6), (lt_Inf_l _ _ _ _ H H9).
    destruct s; [reflexivity|]. rewrite !andb_false_r. reflexivity.
  - apply (getGKIZone_Fin H).
Qed.

Lemma banded_monotone (p q : Q) :
  p <= q -> (rank (banded 1 3 6 9 p) <= rank (banded 1 3 6 9 q))%nat.
Proof.
  intros L. unfold banded.
  destruct (Qle_bool 1 p) eqn:P1, (Qle_bool 3 p) eqn:P3, (Qle_bool 6 p) eqn:P6,
    (Qle_bool 9 p) eqn:P9, (Qle_bool 1 q) eqn:Q1, (Qle_bool 3 q) eqn:Q3,
    (Qle_bool 6 q) eqn:Q6, (Qle_bool 9 q) eqn:Q9; cbn [rank]; try lia; exfalso;
    repeat match goal with
      | H : Qle_bool _ _ = true |- _ => apply Qle_bool_iff in H
      | H : Qle_bool _ _ = false |- _ => apply Qle_bool_false in H
      end; lra.
Qed.

Lemma rank_le_none (z : ZoneKey) : (rank z <= rank none)%nat.
Proof. destruct z; cbn; lia. Qed.

(** X9.  [getGKIZone] is monotone: when [y >= x] holds for two numbers, the
    zone of [y] is the zone of [x] or a later one in the order deep, moderate,
    light, mild, none.  This covers the infinities; [NaN] compares with
    nothing. *)
Theorem getGKIZone_monotone (x y : JS.number) :
  JS.ge y x = true ->
  (rank (zone (getGKIZone x)) <= rank (zone (getGKIZone y)))%nat.
Proof.
  intros G. rewrite !getGKIZone_value.
  destruct (JS.valueOf y) as [|sy|q] eqn:Hy.
  - now rewrite (ge_NaN_l _ _ Hy) in G.
  - destruct sy; [|apply rank_le_none].
    revert G Hy. unfold JS.ge, JS.valueOf. rewrite leb_spec.
    destruct (Prim2SF y) as [| [|] | |]; try discriminate.
    destruct (Prim2SF x) as [| [|] | |]; try discriminate. reflexivity.
  - destruct (JS.valueOf x) as [|sx|p] eqn:Hx.
    + revert G Hx. unfold JS.ge, JS.valueOf. rewrite leb_spec.
      destruct (Prim2SF x); discriminate.
    + destruct sx; [cbn; lia|].
      revert G Hx Hy. unfold JS.ge, JS.valueOf. rewrite leb_spec.
      destruct (Prim2SF x) as [| [|] | |]; try discriminate.
      destruct (Prim2SF y); discriminate.
    + apply banded_monotone. now apply (ge_Fin Hy Hx).
Qed.

(** The values 2.5 and 7. *)
Lemma getGKIZone_monotone_example :
  (rank (zone (getGKIZone 2.5%float)) <= rank (zone (getGKIZone 7%float)))%nat.
Proof. apply (getGKIZone_monotone 2.5%float 7%float). reflexivity. Defined.

End Zones.

(** ** The index without ketones, and the order of the history *)

Section Edges.
Local Open Scope string_scope.

(** *** The index with ketones zero *)

Lemma strictEq_zero (x : JS.number) :
  JS.strictEq x 0%float = true -> exists s, Prim2SF x = S754_zero s.
Proof.
  unfold JS.strictEq. rewrite eqb_spec.
  change (Prim2SF 0%float) with (S754_zero false).
  destruct (Prim2SF x) as [s|s| |s m e]; try discriminate.
  - now exists s.
  - now destruct s.
  - now destruct s.
Qed.

Lemma toFixed_not_finite (x : JS.number) (f : nat) :
  finite (Prim2SF x) = false ->
  JS.toFixed x f =
    match Prim2SF x with
    | S754_infinity true => "-Infinity"
    | S754_infinity false => "Infinity"
    | _ => "NaN"
    end.
Proof.
  unfold JS.toFixed, JS.valueOf, JS.toString.
  destruct (Prim2SF x) as [s|s| |s m e]; try discriminate; reflexivity.
Qed.

(** X10.  With ketones equal to zero, [calculateGKI] does not fail and
    returns no decimal: the index is one of the texts "NaN", "Infinity" and
    "-Infinity", it has no fractional digit, and it does not read back as a
    finite number.  This is the case the test of [handleSubmit] on the ketones
    keeps out of the store. *)
Theorem calculateGKI_zero_ketones (glucoseValue ketonesValue : JS.number) (unit : GlucoseUnit) :
  JS.strictEq ketonesValue 0%float = true ->
  let text := calculateGKI glucoseValue ketonesValue unit in
  (text = "NaN" \/ text = "Infinity" \/ text = "-Infinity")
  /\ oneFractionalDigit text = false
  /\ JS.isFinite (JS.parseFloat text) = false.
Proof.
  intros Z text.
  assert (T : text = "NaN" \/ text = "Infinity" \/ text = "-Infinity").
  { unfold text, calculateGKI. destruct (strictEq_zero _ Z) as [s K].
    set (x := convertGlucoseToMmol glucoseValue unit).
    assert (D : Prim2SF (x / ketonesValue)%float = SFdiv prec emax (Prim2SF x) (S754_zero s))
      by (rewrite div_spec; now rewrite K).
    rewrite toFixed_not_finite; rewrite D;
      destruct (Prim2SF x) as [sx|sx| |sx mx ex]; cbn; try reflexivity;
      try destruct (xorb sx s); auto. }
  split; [exact T|].
  destruct T as [-> | [-> | ->]]; split; vm_compute; reflexivity.
Qed.

(** Glucose 90, 0 and -90 with ketones 0. *)
Lemma calculateGKI_zero_ketones_example :
  calculateGKI 90%float 0%float mg_dL = "Infinity"
  /\ calculateGKI 0%float 0%float mmol_L = "NaN"
  /\ calculateGKI (-90)%float 0%float mg_dL = "-Infinity"
  /\ oneFractionalDigit (calculateGKI 90%float 0%float mg_dL) = false.
Proof.
  split; [vm_compute; reflexivity|]. split; [vm_compute; reflexivity|].
  split; [vm_compute; reflexivity|].
  exact (proj1 (proj2 (calculateGKI_zero_ketones 90%float 0%float mg_dL eq_refl))).
Defined.

(** *** The order of the history *)

Lemma filter_StronglySorted {A : Type} (R : A -> A -> Prop) (f : A -> bool) (l : list A) :
  StronglySorted R l -> StronglySorted R (filter f l).
Proof.
  induction 1 as [|x l S IH F]; cbn; [constructor|].
  destruct (f x); [|exact IH]. constructor; [exact IH|].
  apply Forall_forall. intros y Hy. apply filter_In in Hy as [Hy _].
  revert y Hy. now apply Forall_forall.
Qed.

(** X11.  The handlers keep the history ordered from the newest entry to
    the oldest.  [handleDelete] keeps a history that is so ordered in that
    order, whatever the outcome; [handleSubmit] does when the time of the new
    entry is not before the time of any entry of the history. *)
Theorem handlers_keep_newest_first
  (W : Type) (h : handler W) (w : W) (st : App.state) :
  StronglySorted (descending timeOf) (App.entries st) ->
  (forall id : option JS.number,
      StronglySorted (descending timeOf) (App.entries (result h (App.handleDelete id st) w)))
  /\ (Forall (fun entry => (timeOf entry <= timeOf (fst (submitted h st w)))%Q) (App.entries st) ->
      StronglySorted (descending timeOf) (App.entries (result h (App.handleSubmit st) w))).
Proof.
  intros S. split.
  - intros [id|]; [|exact S]. unfold result. rewrite exec_handleDelete.
    destruct (h bool (Confirm confirmation) w) as [[|] w1]; [|exact S].
    destruct (exec h (App.deleteEntry (Some id)) w1) as [[[u | error] w2] t]; [|exact S].
    cbn. now apply filter_StronglySorted.
  - intros F. unfold result. rewrite exec_handleSubmit.
    destruct (App.rejects st); [exact S|].
    destruct (submitted h st w) as [entry w1]. cbn [fst] in F.
    destruct (exec h (App.addEntry entry) w1) as [[[id | error] w2] t]; [|exact S].
    cbn. constructor; [exact S | exact F].
Qed.

(** A deletion and a submission with a history of two entries. *)
Lemma handlers_keep_newest_first_example :
  StronglySorted (descending timeOf)
    (App.entries (result Env.run (App.handleDelete (Some 1%float)
                                    (Env.form "90" "1.5" mg_dL [Env.newer; Env.older]))
                    (Env.stored Env.fresh [Env.older; Env.newer] 3)))
  /\ StronglySorted (descending timeOf)
       (App.entries (result Env.run (App.handleSubmit
                                       (Env.form "90" "1.5" mg_dL [Env.newer; Env.older]))
                       {| Env.storageAvailable := true; Env.records := [Env.older; Env.newer];
                          Env.keyGenerator := 3; Env.clock := 3000;
                          Env.userConfirms := true |})).
Proof.
  assert (L : forall a b : Entry.t,
             Qle_bool (timeOf a) (timeOf b) = true -> (timeOf a <= timeOf b)%Q)
    by (intros a b; apply Qle_bool_iff).
  assert (S : StronglySorted (descending timeOf) [Env.newer; Env.older]).
  { repeat constructor. apply L. vm_compute. reflexivity. }
  split.
  - apply (proj1 (handlers_keep_newest_first Env.browser Env.run
                    (Env.stored Env.fresh [Env.older; Env.newer] 3)
                    (Env.form "90" "1.5" mg_dL [Env.newer; Env.older]) S)).
  - apply (proj2 (handlers_keep_newest_first Env.browser Env.run _
                    (Env.form "90" "1.5" mg_dL [Env.newer; Env.older]) S)).
    repeat constructor; apply L; vm_compute; reflexivity.
Defined.

End Edges.

(** ** Rounding a mantissa of at least 53 digits *)

Section Nearest.
Local Open Scope Z_scope.

Lemma digits2_unique (m : positive) (k : Z) :
  2 ^ (k - 1) <= Z.pos m < 2 ^ k -> Z.pos (digits2_pos m) = k.
Proof.
  intros [L U]. pose proof (digits2_lower m) as L'. pose proof (digits2_upper m) as U'.
  set (d := Z.pos (digits2_pos m)) in *.
  assert (K : 0 < k).
  { destruct (Z.ltb_spec 0 k) as [|N]; [assumption|].
    assert (2 ^ k <= 2 ^ 0) by (apply Z.pow_le_mono_r; lia). 
    change (2 ^ 0) with 1 in *. lia. }
  destruct (Z.lt_trichotomy d k) as [H | [H | H]]; [|exact H|].
  - assert (2 ^ d <= 2 ^ (k - 1)) by (apply Z.pow_le_mono_r; lia). lia.
  - assert (2 ^ k <= 2 ^ (d - 1)) by (apply Z.pow_le_mono_r; lia). lia.
Qed.

(** [shr_fexp] of a mantissa of [d >= 53] digits keeps the first 53. *)
Lemma shr_fexp_normal (m : positive) (e : Z) (l : location) :
  -1074 <= e -> 53 <= Z.pos (digits2_pos m) ->
  exists m1 : positive,
    shr_m (fst (shr_fexp prec emax (Z.pos m) e l)) = Z.pos m1
    /\ snd (shr_fexp prec emax (Z.pos m) e l) = e + (Z.pos (digits2_pos m) - 53)
    /\ Z.pos m1 = Z.pos m / 2 ^ (Z.pos (digits2_pos m) - 53)
    /\ Z.pos (digits2_pos m1) = 53.
Proof.
  intros He Hd. unfold shr_fexp, shr. rewrite Zdigits2_pos.
  pose proof (digits2_lower m) as L. pose proof (digits2_upper m) as U.
  unfold fexp, SpecFloat.emin, prec, emax.
  set (d := Z.pos (digits2_pos m)) in *.
  destruct (Z.max (d + e - 53) (3 - 1024 - 53) - e) as [|n|n] eqn:En; cbn [fst snd];
    rewrite ?shr_m_record_of_loc; try lia.
  - assert (d = 53) as D by lia. exists m. rewrite D. change (2 ^ (53 - 53)) with 1.
    rewrite Z.div_1_r. repeat split; lia.
  - rewrite iter_shr_1_m by (rewrite shr_m_record_of_loc; lia).
    rewrite shr_m_record_of_loc.
    assert (Z.pos n = d - 53) as -> by lia.
    assert (P : 0 < 2 ^ (d - 53)) by (apply Z.pow_pos_nonneg; lia).
    assert (B : 2 ^ 52 <= Z.pos m / 2 ^ (d - 53) < 2 ^ 53).
    { split.
      - apply Z.div_le_lower_bound; [exact P|].
        rewrite <- Z.pow_add_r by lia. replace (d - 53 + 52) with (d - 1) by lia. exact L.
      - apply Z.div_lt_upper_bound; [exact P|].
        rewrite <- Z.pow_add_r by lia. replace (d - 53 + 53) with d by lia. exact U. }
    destruct (Z.pos m / 2 ^ (d - 53)) as [|m1|m1] eqn:Q; try lia.
    exists m1. repeat split; try lia. apply digits2_unique. exact B.
Qed.

Lemma atLeast_shift (c : Z) (m : positive) (e j : Z) :
  0 < c <= 2 ^ 53 -> -1074 <= e -> 0 <= j ->
  2 ^ 52 <= Z.pos m / 2 ^ j ->
  atLeast c (Z.pos m) e -> atLeast c (Z.pos m / 2 ^ j) (e + j).
Proof.
  unfold atLeast. intros Hc He Hj B V.
  assert (Pj : 0 < 2 ^ j) by (apply Z.pow_pos_nonneg; lia).
  assert (Pe : 0 < 2 ^ (e + 1074)) by (apply Z.pow_pos_nonneg; lia).
  destruct (Z.leb_spec (e + j) 0) as [N | N].
  - assert (c * 2 ^ (- (e + j)) <= Z.pos m / 2 ^ j).
    { apply Z.div_le_lower_bound; [exact Pj|].
      apply Z.mul_le_mono_pos_r with (2 ^ (e + 1074)); [exact Pe|].
      replace (2 ^ j * (c * 2 ^ (- (e + j))) * 2 ^ (e + 1074)) with (c * 2 ^ 1074); [exact V|].
      replace 1074 with (j + (- (e + j)) + (e + 1074)) at 1 by lia.
      rewrite !Z.pow_add_r by lia. ring. }
    replace (c * 2 ^ 1074) with (c * 2 ^ (- (e + j)) * 2 ^ (e + j + 1074)).
    + apply Z.mul_le_mono_nonneg_r; [apply Z.pow_nonneg; lia | assumption].
    + rewrite <- Z.mul_assoc, <- Z.pow_add_r by lia. do 2 f_equal. lia.
  - apply Z.le_trans with (2 ^ 52 * 2 ^ (e + j + 1074)).
    + replace (e + j + 1074) with (1 + (e + j - 1) + 1074) by lia.
      rewrite !Z.pow_add_r by lia.
      assert (HA : 0 < 2 ^ 1074) by (apply Z.pow_pos_nonneg; lia).
      assert (HT : 0 < 2 ^ (e + j - 1)) by (apply Z.pow_pos_nonneg; lia).
      change (2 ^ 1) with 2. destruct Hc as [_ Hc].
      change (2 ^ 53) with (2 ^ 52 * 2) in Hc.
      assert (HP : 0 < 2 ^ 52) by reflexivity.
      revert Hc HA HT HP. generalize (2 ^ 52) (2 ^ 1074) (2 ^ (e + j - 1)).
      intros P A T Hc HA HT HP.
      apply Z.le_trans with (P * 2 * A); [nia|].
      assert (P * A <= P * A * T) by nia. lia.
    + apply Z.mul_le_mono_nonneg_r; [apply Z.pow_nonneg; lia | exact B].
Qed.

Lemma round_nearest_even_le (m : Z) (l : location) : round_nearest_even m l <= m + 1.
Proof. destruct l as [|[| |]]; cbn; try lia. destruct (Z.even m); lia. Qed.

(** Rounding a mantissa of at least 53 digits gives a valid number, and one
    that is not below an integer the mantissa is not below. *)
Lemma binary_round_aux_normal (s : bool) (m : positive) (e : Z) (l : location) (c : Z) :
  -1074 <= e -> 53 <= Z.pos (digits2_pos m) ->
  0 < c <= 2 ^ 53 -> atLeast c (Z.pos m) e ->
  binary_round_aux prec emax s (Z.pos m) e l = S754_infinity s
  \/ exists m' e',
       binary_round_aux prec emax s (Z.pos m) e l = S754_finite s m' e'
       /\ valid_binary (S754_finite s m' e') = true
       /\ atLeast c (Z.pos m') e'.
Proof.
  intros He Hd Hc V. unfold binary_round_aux.
  destruct (shr_fexp_normal m e l He Hd) as (m1 & M1 & E1 & Q1 & D1).
  destruct (shr_fexp prec emax (Z.pos m) e l) as [mrs1 e1]. cbn [fst snd] in M1, E1.
  pose proof (digits2_lower m1) as L1. pose proof (digits2_upper m1) as U1.
  rewrite D1 in L1, U1. change (53 - 1) with 52 in L1.
  assert (V1 : atLeast c (Z.pos m1) e1).
  { rewrite Q1, E1. apply atLeast_shift; first [exact V | lia]. }
  rewrite M1.
  pose proof (round_nearest_even_ge (Z.pos m1) (loc_of_shr_record mrs1)) as G.
  pose proof (round_nearest_even_le (Z.pos m1) (loc_of_shr_record mrs1)) as U.
  destruct (round_nearest_even (Z.pos m1) (loc_of_shr_record mrs1)) as [|m2|m2]; try lia.
  assert (He1 : -1074 <= e1) by lia.
  assert (D2 : 53 <= Z.pos (digits2_pos m2)).
  { pose proof (digits2_upper m2) as U2.
    destruct (Z.ltb_spec (Z.pos (digits2_pos m2)) 53) as [N|]; [|assumption].
    assert (2 ^ Z.pos (digits2_pos m2) <= 2 ^ 52) by (apply Z.pow_le_mono_r; lia). lia. }
  assert (V2 : atLeast c (Z.pos m2) e1).
  { unfold atLeast in *. apply Z.le_trans with (Z.pos m1 * 2 ^ (e1 + 1074)); [exact V1|].
    apply Z.mul_le_mono_nonneg_r; [apply Z.pow_nonneg; lia | exact G]. }
  destruct (shr_fexp_normal m2 e1 loc_Exact He1 D2) as (m3 & M3 & E3 & Q3 & D3).
  destruct (shr_fexp prec emax (Z.pos m2) e1 loc_Exact) as [mrs3 e3]. cbn [fst snd] in M3, E3.
  rewrite M3.
  destruct (e3 <=? emax - prec) eqn:B; [right | now left].
  exists m3, e3. split; [reflexivity|]. split.
  - cbn [valid_binary]. unfold bounded, canonical_mantissa. rewrite B, D3.
    unfold fexp, SpecFloat.emin, prec, emax. rewrite andb_true_r. apply Z.eqb_eq. lia.
  - pose proof (digits2_lower m3) as L3. rewrite D3 in L3. change (53 - 1) with 52 in L3.
    rewrite Q3, E3. apply atLeast_shift; first [exact V2 | lia].
Qed.

Lemma ulpDen_pow : Z.pos JS.ulpDen = 2 ^ 1074.
Proof. unfold JS.ulpDen. now rewrite Pos2Z.inj_pow. Qed.

(** The number nearest to [p / 10] is not below an integer that [p / 10] is
    not below. *)
Lemma roundQ_tenths_lower (p : positive) (c : Z) :
  0 < c <= 2 ^ 53 -> 10 * c <= Z.pos p ->
  JS.valueOf (JS.roundQ false (Z.pos p) 10) = JS.Inf false
  \/ exists r : Q, JS.valueOf (JS.roundQ false (Z.pos p) 10) = JS.Fin r
                   /\ (inject_Z c <= r)%Q.
Proof.
  intros Hc Hp. unfold JS.roundQ, SFdiv_core_binary.
  change (Zdigits2 (Z.pos 10)) with 4. rewrite Zdigits2_pos.
  pose proof (digits2_lower p) as L.
  assert (D : 0 < Z.pos (digits2_pos p)) by lia.
  set (d := Z.pos (digits2_pos p)) in *.
  set (e := Z.min (fexp prec emax (d + 0 - (4 + 0))) (0 - 0)).
  assert (He : -56 <= e <= 0 /\ e <= d - 57)
    by (unfold e, fexp, SpecFloat.emin, prec, emax; lia).
  set (m := match 0 - 0 - e with
            | 0 => Z.pos p
            | Z.pos _ => Z.shiftl (Z.pos p) (0 - 0 - e)
            | Z.neg _ => 0
            end).
  assert (Hm : m = Z.pos p * 2 ^ (- e)).
  { unfold m. replace (0 - 0 - e) with (- e) by lia.
    destruct (- e) as [|k|k] eqn:K; try lia.
    rewrite Z.shiftl_mul_pow2 by lia. reflexivity. }
  assert (P : 0 < 2 ^ (- e)) by (apply Z.pow_pos_nonneg; lia).
  assert (B : 2 ^ 56 <= m).
  { rewrite Hm. apply Z.le_trans with (2 ^ (d - 1) * 2 ^ (- e)).
    - rewrite <- Z.pow_add_r by lia. apply Z.pow_le_mono_r; lia.
    - apply Z.mul_le_mono_nonneg_r; lia. }
  pose proof (Z_div_mod m 10 eq_refl) as DM.
  destruct (Z.div_eucl m 10) as [q r]. destruct DM as [DM R].
  assert (Q52 : 2 ^ 52 <= q).
  { change (2 ^ 56) with (16 * 2 ^ 52) in B. assert (0 < 2 ^ 52) by reflexivity. lia. }
  destruct q as [|q|q]; try (assert (0 < 2 ^ 52) by reflexivity; lia).
  assert (Dq : 53 <= Z.pos (digits2_pos q)).
  { pose proof (digits2_upper q) as U.
    destruct (Z.ltb_spec (Z.pos (digits2_pos q)) 53) as [N|]; [|assumption].
    assert (2 ^ Z.pos (digits2_pos q) <= 2 ^ 52) by (apply Z.pow_le_mono_r; lia). lia. }
  assert (V : atLeast c (Z.pos q) e).
  { unfold atLeast.
    assert (c * 2 ^ (- e) <= Z.pos q).
    { assert (10 * (c * 2 ^ (- e)) <= m) by (rewrite Hm; nia). lia. }
    replace (c * 2 ^ 1074) with (c * 2 ^ (- e) * 2 ^ (e + 1074)).
    - apply Z.mul_le_mono_nonneg_r; [apply Z.pow_nonneg; lia | assumption].
    - rewrite <- Z.mul_assoc, <- Z.pow_add_r by lia. do 2 f_equal. lia. }
  destruct (binary_round_aux_normal false q e (new_location 10 r) c
              ltac:(lia) Dq Hc V) as [-> | (m' & e' & -> & Valid & V')].
  - left. unfold JS.valueOf. now rewrite Prim2SF_SF2Prim.
  - right. unfold JS.valueOf. rewrite Prim2SF_SF2Prim by exact Valid.
    cbn [JS.SF2value JS.ulps cond_Zopp]. eexists. split; [reflexivity|].
    unfold Qle. cbn [Qnum Qden inject_Z]. rewrite ulpDen_pow. unfold atLeast in V'. lia.
Qed.

End Nearest.

(** ** The zone on a card *)

Section Cards.
Local Open Scope Q_scope.

Lemma rank_injective (z z' : ZoneKey) : rank z = rank z' -> z = z'.
Proof. destruct z, z'; cbn; congruence. Qed.

(** The zone of the number nearest to [n / 10] is the band of [n / 10]. *)
Lemma zone_tenths (n : Z) :
  (0 <= n)%Z ->
  zone (getGKIZone (JS.roundQ false n 10)) = banded 1 3 6 9 (n # 10).
Proof.
  intros Hn. destruct (Z.ltb_spec n 90) as [Small | Large].
  - assert (C : forallb
                  (fun k => Nat.eqb
                              (rank (zone (getGKIZone (JS.roundQ false (Z.of_nat k) 10))))
                              (rank (banded 1 3 6 9 (Z.of_nat k # 10))))
                  (seq 0 90) = true) by (vm_compute; reflexivity).
    rewrite forallb_forall in C. specialize (C (Z.to_nat n)).
    rewrite Z2Nat.id in C by exact Hn.
    apply rank_injective, Nat.eqb_eq, C, in_seq. lia.
  - assert (B : banded 1 3 6 9 (n # 10) = none).
    { unfold banded.
      assert (T : forall b : Q, b <= 9 -> Qle_bool b (n # 10) = true).
      { intros b Hb. apply Qle_bool_iff. apply Qle_trans with 9; [exact Hb|].
        unfold Qle. cbn [Qnum Qden]. lia. }
      now rewrite (T 1), (T 3), (T 6), (T 9) by lra. }
    rewrite B, getGKIZone_value. destruct n as [|p|p]; try lia.
    assert (H9 : (0 < 9 <= 2 ^ 53)%Z) by (split; [reflexivity | discriminate]).
    destruct (roundQ_tenths_lower p 9 H9 ltac:(lia)) as [-> | (r & -> & R)].
    + reflexivity.
    + unfold banded. change (inject_Z 9) with 9 in R.
      assert (T : forall b : Q, b <= 9 -> Qle_bool b r = true)
        by (intros b Hb; apply Qle_bool_iff; lra).
      now rewrite (T 1), (T 3), (T 6), (T 9) by lra.
Qed.

Lemma Qfloor_ge (k : Z) (x : Q) : (k <= Qfloor x)%Z <-> inject_Z k <= x.
Proof.
  split.
  - intros H. apply Qle_trans with (inject_Z (Qfloor x)); [|apply Qfloor_le].
    rewrite <- Zle_Qle. exact H.
  - intros H. rewrite <- (Qfloor_Z k). now apply Qfloor_resp_le.
Qed.

(** The band of a value rounded to one decimal, the larger of two. *)
Lemma banded_rounded (q : Q) :
  banded 1 3 6 9 (JS.nearestInteger (q * 10) # 10)
  = banded (19 # 20) (59 # 20) (119 # 20) (179 # 20) q.
Proof.
  assert (T : forall (b : Z) (b' : Q),
             b' == inject_Z b - (1 # 20) ->
             Qle_bool (inject_Z b) (JS.nearestInteger (q * 10) # 10) = Qle_bool b' q).
  { intros b b' E.
    assert (I : inject_Z b <= JS.nearestInteger (q * 10) # 10 <-> b' <= q).
    { unfold JS.nearestInteger.
      assert (F : (b * 10 <= Qfloor (q * 10 + (1 # 2)))%Z <-> b' <= q).
      { rewrite Qfloor_ge, inject_Z_mult. change (inject_Z 10) with 10. split; intros; lra. }
      rewrite <- F. unfold Qle. cbn [Qnum Qden inject_Z]. lia. }
    destruct (Qle_bool b' q) eqn:B.
    - apply Qle_bool_iff, I, Qle_bool_iff, B.
    - destruct (Qle_bool (inject_Z b) _) eqn:B'; [|reflexivity].
      apply Qle_bool_iff, I, Qle_bool_iff in B'. congruence. }
  unfold banded.
  rewrite <- (T 1%Z (19 # 20)), <- (T 3%Z (59 # 20)), <- (T 6%Z (119 # 20)),
    <- (T 9%Z (179 # 20)) by reflexivity.
  reflexivity.
Qed.

Lemma zone_of_toFixed (x : JS.number) (q : Q) :
  JS.valueOf x = JS.Fin q -> 0 <= q -> q < inject_Z (10 ^ 21) ->
  zone (getGKIZone (JS.parseFloat (JS.toFixed x 1)))
  = banded (19 # 20) (59 # 20) (119 # 20) (179 # 20) q.
Proof.
  intros V H0 H21.
  destruct (toFixed_one_decimal _ _ V H0 H21) as (a & d & T & Da & Na & Dd & Vn).
  destruct (parseFloat_one_decimal a d Da Na Dd) as (P & _ & _).
  rewrite T, P, Vn, zone_tenths, banded_rounded; [reflexivity|].
  apply nearestInteger_nonneg. lra.
Qed.

(** X12.  The zone on a card is computed from the stored text of the index,
    not from the quotient.  For positive finite glucose and ketones with a
    quotient below [10^21], the card of an entry whose index is
    [calculateGKI glucose ketones unit] shows the zone of the quotient rounded
    to one decimal: the bands of the quotient [q] on the card start at 0.95,
    2.95, 5.95 and 8.95, while [getGKIZone] of the quotient itself has the
    bands that start at 1, 3, 6 and 9. *)
Theorem card_shows_the_zone_of_the_rounded_index
  (glucose ketones : JS.number) (unit : GlucoseUnit) (g k : Q)
  (id : option JS.number) (timestamp : JS.number) :
  JS.valueOf glucose = JS.Fin g -> JS.valueOf ketones = JS.Fin k ->
  0 < g -> 0 < k ->
  JS.lt (convertGlucoseToMmol glucose unit / ketones)%float 1e21%float = true ->
  let quotient := (convertGlucoseToMmol glucose unit / ketones)%float in
  let entry := Entry.mk id glucose unit ketones (calculateGKI glucose ketones unit) timestamp in
  App.badgeText (App.renderEntry entry)
  = zoneMessage (banded (19 # 20) (59 # 20) (119 # 20) (179 # 20) (JS.exactQ quotient))
  /\ zone (getGKIZone quotient) = banded 1 3 6 9 (JS.exactQ quotient).
Proof.
  intros Hg Hk Pg Pk L quotient entry.
  pose proof (quotient_signed glucose ketones unit g k Hg Hk Pg Pk) as S.
  destruct (signed_below _ _ _ S constant_1e21 L) as (V & H0 & H21).
  fold quotient in V, H0, H21. split.
  - unfold App.renderEntry, entry. cbn [App.badgeText Entry.gki].
    unfold calculateGKI. fold quotient. now rewrite (zone_of_toFixed _ _ V H0 H21).
  - now rewrite getGKIZone_value, V.
Qed.

(** Glucose 3.875 mmol/L with ketones 4: the quotient 0.96875 is in the
    deepest band, the index is the text 1.0, and the card shows the next
    zone. *)
(** Glucose 4.9 mmol/L with ketones 5: the quotient 0.98 is in the deepest
    band, the index is the text 1.0, and the card shows the next zone. *)
Lemma card_shows_the_zone_of_the_rounded_index_example :
  calculateGKI 3.875%float 4%float mmol_L = "1.0"%string
  /\ App.badgeText (App.renderEntry
                      (Entry.mk (Some 1%float) 3.875%float mmol_L 4%float
                         (calculateGKI 3.875%float 4%float mmol_L) 1000%float))
     = "Moderate therapeutic ketosis"%string
  /\ zone (getGKIZone (convertGlucoseToMmol 3.875%float mmol_L / 4)%float) = deep.
Proof.
  pose proof (card_shows_the_zone_of_the_rounded_index 3.875%float 4%float mmol_L
                (JS.exactQ 3.875%float) (JS.exactQ 4%float) (Some 1%float) 1000%float
                ltac:(vm_compute; reflexivity) ltac:(vm_compute; reflexivity)
                ltac:(vm_compute; reflexivity) ltac:(vm_compute; reflexivity)
                ltac:(vm_compute; reflexivity)) as H.
  cbv zeta in H. destruct H as [B Z].
  split; [vm_compute; reflexivity|]. split.
  - rewrite B. vm_compute. reflexivity.
  - rewrite Z. vm_compute. reflexivity.
Defined.

End Cards.

(** ** Saving and deleting again *)

Section RoundTrip.
Local Open Scope string_scope.

Lemma filter_all {A : Type} (f : A -> bool) (l : list A) :
  forallb f l = true -> filter f l = l.
Proof.
  induction l as [|x l IH]; cbn; [reflexivity|].
  intros H. apply andb_true_iff in H as [Hx Hl]. now rewrite Hx, IH.
Qed.

(** X13.  Deleting the entry that was just saved restores the history.  When
    a submission has put a new entry in front of the history, the button of
    its card deletes by the key the store assigned; if that key equals itself
    (it is not [NaN]) and no older entry has it, then after a confirmed and
    successful deletion the history is the one before the submission. *)
Theorem delete_undoes_submit
  (W : Type) (h : handler W) (w w' : W) (st : App.state) (entry : Entry.t) (id : JS.number) :
  let saved := result h (App.handleSubmit st) w in
  App.entries saved = entry :: App.entries st ->
  App.deletes (App.renderEntry entry) = Some id ->
  JS.strictEq id id = true ->
  forallb (App.idDiffers id) (App.entries st) = true ->
  fst (h _ (Confirm confirmation) w') = true ->
  result h (App.deleteEntry (Some id)) (snd (h _ (Confirm confirmation) w')) = Resolved tt ->
  App.entries (result h (App.handleDelete (App.deletes (App.renderEntry entry)) saved) w')
  = App.entries st.
Proof.
  intros saved E B N F C D. rewrite B. cbn [App.renderEntry App.deletes] in B.
  unfold result in *. rewrite exec_handleDelete.
  destruct (h bool (Confirm confirmation) w') as [c w1]. cbn [fst snd] in C, D. subst c.
  destruct (exec h (App.deleteEntry (Some id)) w1) as [[r w2] t]. cbn [fst] in D. subst r.
  cbn [fst App.entries App.setEntries]. rewrite E. cbn [filter].
  unfold App.idDiffers at 1. rewrite B, N. cbn [negb]. now apply filter_all.
Qed.

(** Glucose 90 mg/dL with ketones 1.5, saved behind one older entry and
    deleted again. *)
Lemma delete_undoes_submit_example :
  let st := Env.form "90" "1.5" mg_dL [Env.older] in
  let b := Env.stored Env.fresh [Env.older] 2 in
  let saved := result Env.run (App.handleSubmit st) b in
  let b' := world Env.run (App.handleSubmit st) b in
  List.length (App.entries saved) = 2%nat
  /\ App.entries (result Env.run (App.handleDelete (Some 2%float) saved) b') = [Env.older].
Proof.
  intros st b saved b'. split; [reflexivity|].
  exact (delete_undoes_submit Env.browser Env.run b b' st
           (Entry.mk (Some 2%float) 90%float mg_dL 1.5%float "3.3" 1000%float) 2%float
           ltac:(vm_compute; reflexivity) eq_refl eq_refl eq_refl eq_refl eq_refl).
Defined.

End RoundTrip.
